(** * respond.c: the response half of a small HTTP/1.0 static file server

    A shallow embedding of [write_message], [send_http_response] and
    [write_content_type] (src/respond.c), over a model of the C string
    functions and of the system calls they use, followed by the properties
    of the response they produce. *)

From Stdlib Require Import ZArith List Bool Lia String.
From Stdlib Require Import Strings.Byte Lists.Finite.
Import ListNotations.
Local Open Scope Z_scope.

(** ** C strings

    A [char *] is modelled by the bytes of the object it points into, from
    the pointer on.  The object is taken to be followed by a terminating
    NUL, so a string literal is the list of its characters and the string
    functions are total. *)

Module CString.

Definition NUL : byte := x00.

(** The value of a character as [unsigned char]. *)
Definition uchar (c : byte) : Z := Z.of_N (Byte.to_N c).

(** [strlen]: the number of bytes before the first NUL. *)
Fixpoint strlen (s : list byte) : Z :=
  match s with
  | [] => 0
  | c :: s' => if Byte.eqb c NUL then 0 else 1 + strlen s'
  end.

(** The string a pointer denotes: the bytes before the first NUL. *)
Fixpoint c_str (s : list byte) : list byte :=
  match s with
  | [] => []
  | c :: s' => if Byte.eqb c NUL then [] else c :: c_str s'
  end.

(** [strcmp]: the difference of the first pair of differing characters,
    compared as [unsigned char]; 0 when both strings end together. *)
Fixpoint strcmp (s1 s2 : list byte) : Z :=
  match s1 with
  | [] => 0 - uchar (hd NUL s2)
  | c1 :: t1 =>
      let c2 := hd NUL s2 in
      if Byte.eqb c1 c2
      then (if Byte.eqb c1 NUL then 0 else strcmp t1 (tl s2))
      else uchar c1 - uchar c2
  end.

(** [strrchr]: a pointer to the last occurrence of [c] in the string
    (the terminator counts as part of the string), or NULL ([None]).
    The pointer is the suffix of the object that starts there. *)
Fixpoint strrchr (s : list byte) (c : byte) : option (list byte) :=
  match s with
  | [] => if Byte.eqb c NUL then Some [] else None
  | h :: t =>
      if Byte.eqb h NUL
      then (if Byte.eqb c NUL then Some s else None)
      else match strrchr t c with
           | Some p => Some p
           | None => if Byte.eqb h c then Some s else None
           end
  end.

(** No NUL among the bytes: the list is exactly the string it denotes. *)
Definition nul_free (s : list byte) : bool :=
  forallb (fun c => negb (Byte.eqb c NUL)) s.

Fixpoint bytes_eqb (a b : list byte) : bool :=
  match a, b with
  | [], [] => true
  | x :: a', y :: b' => Byte.eqb x y && bytes_eqb a' b'
  | _, _ => false
  end.

End CString.
Import CString.

(** A string literal of the source, as bytes. *)
Definition lit (s : string) : list byte := list_byte_of_string s.

Definition CRLF : list byte := [x0d; x0a].

(** ** The operating system

    The file system, the descriptor table of the process, and a record of
    every call made.  What a socket has received is read off that record. *)

Module Posix.

(** The next transfer call ([write] or [sendfile]) fails, moves at most
    [k] bytes, or moves all it was asked for. *)
Inductive outcome :=
| Fail
| Partial (k : Z)
| Full.

Record inode := {
  i_mode : Z;              (* file type and permission bits *)
  i_readable : bool;       (* may this process open it for reading *)
  i_data : list byte
}.

Record stat := { st_mode : Z; st_size : Z }.

Inductive event :=
| EvOpen (pathname : list byte) (ret : Z)
| EvFstat (fd : Z) (ret : Z)
| EvWrite (fd : Z) (buf : list byte) (ret : Z)
| EvSendfile (out_fd in_fd offset count : Z) (data : list byte) (ret : Z)
| EvPerror (s : list byte).

(** [pending] scripts the transfer calls still to come, one outcome per
    call; once it is used up every call moves all it is asked for. *)
Record world := {
  fs : list (list byte * inode);
  fdtable : list (Z * inode);
  pending : list outcome;
  log : list event
}.

Definition record (w : world) (e : event) : world :=
  {| fs := fs w; fdtable := fdtable w; pending := pending w;
     log := log w ++ [e] |}.

Definition consume (w : world) : world :=
  {| fs := fs w; fdtable := fdtable w; pending := tl (pending w);
     log := log w |}.

Fixpoint lookup_path (dir : list (list byte * inode)) (p : list byte)
  : option inode :=
  match dir with
  | [] => None
  | (q, i) :: dir' => if bytes_eqb q p then Some i else lookup_path dir' p
  end.

Fixpoint lookup_fd (tbl : list (Z * inode)) (fd : Z) : option inode :=
  match tbl with
  | [] => None
  | (d, i) :: tbl' => if d =? fd then Some i else lookup_fd tbl' fd
  end.

Definition open_fds (w : world) : list Z := map fst (fdtable w).

(** inode(7). *)
Definition S_IFMT : Z := 61440.    (* 0170000 *)
Definition S_IFREG : Z := 32768.   (* 0100000 *)
Definition S_IFDIR : Z := 16384.   (* 0040000 *)
Definition S_IFCHR : Z := 8192.    (* 0020000 *)
Definition S_ISREG (m : Z) : bool := Z.land m S_IFMT =? S_IFREG.

Definition O_RDONLY : Z := 0.

(** The lowest descriptor number, from [fd] up, that is not in use. *)
Fixpoint lowest_free (used : list Z) (fd : Z) (tries : nat) : Z :=
  match tries with
  | O => fd
  | S n => if existsb (Z.eqb fd) used
           then lowest_free used (fd + 1) n
           else fd
  end.

Definition fresh_fd (tbl : list (Z * inode)) : Z :=
  lowest_free (map fst tbl) 0 (List.length tbl).

(** open(2) with O_RDONLY: -1 when the path names nothing or may not be
    read, else the lowest unused descriptor, which stays in the table
    until it is closed. *)
Definition open (w : world) (pathname : list byte) (flags : Z) : world * Z :=
  let p := c_str pathname in
  match lookup_path (fs w) p with
  | Some ino =>
      if i_readable ino then
        let fd := fresh_fd (fdtable w) in
        ({| fs := fs w; fdtable := (fd, ino) :: fdtable w;
            pending := pending w; log := log w ++ [EvOpen p fd] |}, fd)
      else (record w (EvOpen p (-1)), -1)
  | None => (record w (EvOpen p (-1)), -1)
  end.

(** fstat(2): fills [*statbuf] and returns 0, or returns -1 and leaves it
    alone when [fd] is not open. *)
Definition fstat (w : world) (fd : Z) (statbuf : stat) : world * stat * Z :=
  match lookup_fd (fdtable w) fd with
  | Some ino =>
      (record w (EvFstat fd 0),
       {| st_mode := i_mode ino;
          st_size := Z.of_nat (List.length (i_data ino)) |}, 0)
  | None => (record w (EvFstat fd (-1)), statbuf, -1)
  end.

(** write(2) moves at most this many bytes in one call (Linux). *)
Definition MAX_RW_COUNT : Z := 2147479552.   (* 0x7ffff000 *)

(** The count a transfer call returns when it could move [most] bytes. *)
Definition moved (o : option outcome) (most : Z) : Z :=
  match o with
  | Some Fail => -1
  | Some (Partial k) => Z.max 0 (Z.min k most)
  | Some Full | None => most
  end.

(** write(2): hands the first [count] bytes of [buf] to [fd]; returns the
    number accepted, a prefix of them, or -1. *)
Definition write (w : world) (fd : Z) (buf : list byte) (count : Z)
  : world * Z :=
  let ret := moved (hd_error (pending w)) (Z.min count MAX_RW_COUNT) in
  (record (consume w) (EvWrite fd (firstn (Z.to_nat count) buf) ret), ret).

(** sendfile(2) with a non-NULL [offset]: copies up to [count] bytes of
    [in_fd], starting at [*offset], to [out_fd]; returns the number
    copied, or -1.  On return [*offset] has been advanced to the byte
    after the last one read; the second component is its new value. *)
Definition sendfile (w : world) (out_fd in_fd : Z) (offset : Z) (count : Z)
  : world * Z * Z :=
  match lookup_fd (fdtable w) in_fd with
  | None => (record w (EvSendfile out_fd in_fd offset count [] (-1)),
             offset, -1)
  | Some ino =>
      let rest := skipn (Z.to_nat offset) (i_data ino) in
      let most := Z.max 0 (Z.min count (Z.of_nat (List.length rest))) in
      let ret := moved (hd_error (pending w)) most in
      let data := firstn (Z.to_nat ret) rest in
      (record (consume w) (EvSendfile out_fd in_fd offset count data ret),
       if ret <? 0 then offset else offset + ret, ret)
  end.

(** perror(3) prints its message ("write: " and the text of the error) on
    the standard error stream, descriptor 2.  The call is recorded in the
    log; its message is not among the bytes [received] counts, which are
    those the [write] and [sendfile] calls moved. *)
Definition perror (w : world) (s : list byte) : world :=
  record w (EvPerror s).

(** The bytes a [write] or [sendfile] call put on descriptor [fd]. *)
Definition event_bytes (fd : Z) (e : event) : list byte :=
  match e with
  | EvWrite fd' buf ret => if fd' =? fd then firstn (Z.to_nat ret) buf else []
  | EvSendfile out_fd _ _ _ data _ => if out_fd =? fd then data else []
  | _ => []
  end.

Definition bytes_on (fd : Z) (l : list event) : list byte :=
  flat_map (event_bytes fd) l.

(** Everything [write] and [sendfile] have put on descriptor [fd] so far. *)
Definition received (w : world) (fd : Z) : list byte := bytes_on fd (log w).

(** The calls that move bytes, and those among them that failed. *)
Definition is_transfer (e : event) : bool :=
  match e with
  | EvWrite _ _ _ | EvSendfile _ _ _ _ _ _ => true
  | _ => false
  end.

Definition failed (e : event) : bool :=
  match e with
  | EvWrite _ _ ret | EvSendfile _ _ _ _ _ ret => ret <? 0
  | _ => false
  end.

Definition transfers (l : list event) : list event := filter is_transfer l.

End Posix.
Import Posix.

(** ** respond.c *)

(** The value of a [ssize_t] once stored in an [int]. *)
Definition to_int (z : Z) : Z := (z + 2147483648) mod 4294967296 - 2147483648.

(** Modelled from the spec: respond.h, which defines the constants below,
    is not among the sources.  The two results of [write_message] are the
    ones the comment above it gives ("returns false in the case of an
    error; returns true otherwise"). *)
Definition WRITE_ERROR : bool := false.
Definition WRITE_SUCCESSFUL : bool := true.

(** Modelled from the spec: what [strcmp] returns for equal strings. *)
Definition SAME_STRING : Z := 0.

(** Modelled from the spec: the extension delimiter, '.'. *)
Definition FILE_EXTENSION_DELIMITER : byte := x2e.

(** Modelled from the spec: the four suffixes of the Content-Type
    Resolver's table, delimiter included. *)
Definition HTML_EXTENSION : list byte := lit ".html".
Definition JPEG_EXTENSION : list byte := lit ".jpg".
Definition JAVA_SCRIPT_EXTENSION : list byte := lit ".js".
Definition CSS_EXTENSION : list byte := lit ".css".

(** The literals of the source. *)
Definition STATUS_200 : list byte := lit "HTTP/1.0 200 OK" ++ CRLF.
Definition STATUS_404 : list byte := lit "HTTP/1.0 404 Not Found" ++ CRLF ++ CRLF.
Definition CONTENT_TYPE : list byte := lit "Content-Type: ".
Definition END_OF_HEADERS : list byte := CRLF ++ CRLF.

Definition write_message (w : world) (sockfd_to_send : Z) (message : list byte)
  : world * bool :=
  let '(w, r) := write w sockfd_to_send message (strlen message) in
  let n := to_int r in
  if n <? 0 then (perror w (lit "write"), WRITE_ERROR)
  else (w, WRITE_SUCCESSFUL).

Definition write_content_type (w : world) (sockfd_to_send : Z)
    (file_path : list byte) : world * bool :=
  let extension := strrchr file_path FILE_EXTENSION_DELIMITER in
  match extension with
  | Some extension =>
      if strcmp extension HTML_EXTENSION =? SAME_STRING then
        let '(w, r) := write_message w sockfd_to_send (lit "text/html") in
        if Bool.eqb r WRITE_ERROR then (w, WRITE_ERROR)
        else (w, WRITE_SUCCESSFUL)
      else if strcmp extension JPEG_EXTENSION =? SAME_STRING then
        let '(w, r) := write_message w sockfd_to_send (lit "image/jpeg") in
        if Bool.eqb r WRITE_ERROR then (w, WRITE_ERROR)
        else (w, WRITE_SUCCESSFUL)
      else if strcmp extension JAVA_SCRIPT_EXTENSION =? SAME_STRING then
        let '(w, r) := write_message w sockfd_to_send (lit "text/javascript") in
        if Bool.eqb r WRITE_ERROR then (w, WRITE_ERROR)
        else (w, WRITE_SUCCESSFUL)
      else if strcmp extension CSS_EXTENSION =? SAME_STRING then
        let '(w, r) := write_message w sockfd_to_send (lit "text/css") in
        if Bool.eqb r WRITE_ERROR then (w, WRITE_ERROR)
        else (w, WRITE_SUCCESSFUL)
      else
        let '(w, r) :=
          write_message w sockfd_to_send (lit "application/octet-stream") in
        if Bool.eqb r WRITE_ERROR then (w, WRITE_ERROR)
        else (w, WRITE_SUCCESSFUL)
  | None =>
      let '(w, r) :=
        write_message w sockfd_to_send (lit "application/octet-stream") in
      if Bool.eqb r WRITE_ERROR then (w, WRITE_ERROR)
      else (w, WRITE_SUCCESSFUL)
  end.

(** The [while] loop of [send_http_response].  [sendfile] is given the
    address of [total_num_bytes_sent] as its offset, so the call itself
    moves that variable forward before the loop body adds the count to it.
    The result is the world and the value of [total_num_bytes_sent] when
    the loop is left, and whether it was left by the [return].  [None]: the
    loop is still running after [fuel] rounds. *)
Fixpoint sendfile_loop (fuel : nat) (w : world)
    (sockfd_to_send file_path_fd file_to_send_size total_num_bytes_sent : Z)
  : option (world * Z * bool) :=
  if total_num_bytes_sent <? file_to_send_size then
    match fuel with
    | O => None
    | S fuel' =>
        let '(w, total_num_bytes_sent, bytes_successfully_sent) :=
          sendfile w sockfd_to_send file_path_fd
                   total_num_bytes_sent file_to_send_size in
        if bytes_successfully_sent >=? 0 then
          sendfile_loop fuel' w sockfd_to_send file_path_fd file_to_send_size
                        (total_num_bytes_sent + bytes_successfully_sent)
        else Some (w, total_num_bytes_sent, true)
    end
  else Some (w, total_num_bytes_sent, false).

(** [file_stat] is not initialised in the source; the value it starts with
    is never read, since [fstat] on the descriptor [open] has just returned
    fills it. *)
Definition send_http_response (fuel : nat) (w : world) (sockfd_to_send : Z)
    (file_path : list byte) : option world :=
  let file_stat := {| st_mode := 0; st_size := 0 |} in
  let '(w, file_path_fd) := open w file_path O_RDONLY in
  if file_path_fd <? 0 then
    let '(w, r) := write_message w sockfd_to_send STATUS_404 in
    if Bool.eqb r WRITE_ERROR then Some w else Some w
  else
    let '(w, file_stat, _) := fstat w file_path_fd file_stat in
    if S_ISREG (st_mode file_stat) then
      let '(w, r) := write_message w sockfd_to_send STATUS_200 in
      if Bool.eqb r WRITE_ERROR then Some w else
      let '(w, r) := write_message w sockfd_to_send CONTENT_TYPE in
      if Bool.eqb r WRITE_ERROR then Some w else
      let '(w, r) := write_content_type w sockfd_to_send file_path in
      if Bool.eqb r WRITE_ERROR then Some w else
      let '(w, r) := write_message w sockfd_to_send END_OF_HEADERS in
      if Bool.eqb r WRITE_ERROR then Some w else
      let file_to_send_size := st_size file_stat in
      let total_num_bytes_sent := 0 in
      match sendfile_loop fuel w sockfd_to_send file_path_fd
                          file_to_send_size total_num_bytes_sent with
      | Some (w, _, _) => Some w
      | None => None
      end
    else
      let '(w, r) := write_message w sockfd_to_send STATUS_404 in
      if Bool.eqb r WRITE_ERROR then Some w else Some w.

(** ** The Content-Type Resolver as the specification words it *)

(** The suffix of [p] that starts at the last occurrence of [d]. *)
Fixpoint suffix_from_last (d : byte) (p : list byte) : option (list byte) :=
  match p with
  | [] => None
  | c :: p' =>
      match suffix_from_last d p' with
      | Some s => Some s
      | None => if Byte.eqb c d then Some p else None
      end
  end.

(** The table of recognised suffixes, matched exactly. *)
Definition mime_of_suffix (ext : list byte) : list byte :=
  if bytes_eqb ext (lit ".html") then lit "text/html"
  else if bytes_eqb ext (lit ".jpg") then lit "image/jpeg"
  else if bytes_eqb ext (lit ".js") then lit "text/javascript"
  else if bytes_eqb ext (lit ".css") then lit "text/css"
  else lit "application/octet-stream".

Definition resolve_content_type (path : list byte) : list byte :=
  match suffix_from_last x2e path with
  | Some ext => mime_of_suffix ext
  | None => lit "application/octet-stream"
  end.

(** ** Sample worlds *)

(** A regular file, mode 0644, and a directory, mode 0755. *)
Definition regular (data : list byte) : inode :=
  {| i_mode := Z.lor S_IFREG 420; i_readable := true; i_data := data |}.

Definition directory : inode :=
  {| i_mode := Z.lor S_IFDIR 493; i_readable := true; i_data := [] |}.

Definition sample_fs : list (list byte * inode) :=
  [ (lit "/www/index.html", regular (lit "0123456789"));
    (lit "/www/abcd.html", regular (lit "abcd"));
    (lit "/www/a.bin", regular (lit "a"));
    (lit "/www/secret.css",
       {| i_mode := Z.lor S_IFREG 0; i_readable := false; i_data := lit "x" |});
    (lit "/www", directory) ].

(** A process with its standard streams on a terminal, a listening socket,
    3, and one connected socket, 4. *)
Definition sample_fdtable : list (Z * inode) :=
  let tty := {| i_mode := Z.lor S_IFCHR 400; i_readable := true; i_data := [] |} in
  let sock := {| i_mode := 49152; i_readable := true; i_data := [] |} in
  [ (0, tty); (1, tty); (2, tty); (3, sock); (4, sock) ].

Definition sample_world (script : list outcome) : world :=
  {| fs := sample_fs; fdtable := sample_fdtable; pending := script; log := [] |}.

(** What socket 4 receives when the sample process answers a request for
    [path], with [script] for the transfer calls. *)
Definition run (script : list outcome) (path : string) : option (list byte) :=
  option_map (fun w => received w 4)
    (send_http_response (S (List.length script)) (sample_world script) 4 (lit path)).

(** ** Notions the statements use *)

(** The count the [write] of [message], made in [w], returns. *)
Definition write_ret (w : world) (message : list byte) : Z :=
  moved (hd_error (pending w)) (Z.min (strlen message) MAX_RW_COUNT).

(** The calls one [write_message] makes when its [write] returns [n]. *)
Definition write_message_events (sockfd : Z) (message : list byte) (n : Z)
  : list event :=
  EvWrite sockfd (c_str message) n
  :: (if n <? 0 then [EvPerror (lit "write")] else []).

(** The MIME type [write_content_type] passes to [write_message]. *)
Definition content_type_written (file_path : list byte) : list byte :=
  match strrchr file_path FILE_EXTENSION_DELIMITER with
  | Some extension =>
      if strcmp extension HTML_EXTENSION =? SAME_STRING then lit "text/html"
      else if strcmp extension JPEG_EXTENSION =? SAME_STRING then lit "image/jpeg"
      else if strcmp extension JAVA_SCRIPT_EXTENSION =? SAME_STRING
      then lit "text/javascript"
      else if strcmp extension CSS_EXTENSION =? SAME_STRING then lit "text/css"
      else lit "application/octet-stream"
  | None => lit "application/octet-stream"
  end.

(** What [open] finds at the path, when it succeeds. *)
Definition openable (w : world) (file_path : list byte) : option inode :=
  match lookup_path (fs w) (c_str file_path) with
  | Some ino => if i_readable ino then Some ino else None
  | None => None
  end.

(** The file the path leads to when it can be opened and is a regular
    file; [None] for every path that is answered with the 404 message. *)
Definition servable (w : world) (file_path : list byte) : option inode :=
  match openable w file_path with
  | Some ino => if S_ISREG (i_mode ino) then Some ino else None
  | None => None
  end.

(** Every scripted transfer call moves all it is asked for. *)
Definition all_full (script : list outcome) : Prop :=
  Forall (fun o => o = Full) script.

(** No scripted transfer call fails (some may be partial). *)
Definition none_fails (script : list outcome) : Prop :=
  Forall (fun o => o <> Fail) script.

(** After a failed transfer call no other transfer call is made. *)
Fixpoint halts_at_failure (l : list event) : bool :=
  match l with
  | [] => true
  | e :: l' =>
      if failed e then forallb (fun e' => negb (is_transfer e')) l'
      else halts_at_failure l'
  end.

(** A run of [write_message] calls, each checked like the header writes of
    [send_http_response]: the first that answers WRITE_ERROR ends the run. *)
Fixpoint write_all (w : world) (sockfd : Z) (messages : list (list byte))
  : world * bool :=
  match messages with
  | [] => (w, WRITE_SUCCESSFUL)
  | m :: rest =>
      let '(w, r) := write_message w sockfd m in
      if Bool.eqb r WRITE_ERROR then (w, WRITE_ERROR)
      else write_all w sockfd rest
  end.

(** The four header writes of the 200 response. *)
Definition headers (file_path : list byte) : list (list byte) :=
  [STATUS_200; CONTENT_TYPE; content_type_written file_path; END_OF_HEADERS].

(** The descriptor table entries an invocation adds: the file it opened. *)
Definition newly_opened (w : world) (file_path : list byte)
  : list (Z * inode) :=
  match openable w file_path with
  | Some ino => [(fresh_fd (fdtable w), ino)]
  | None => []
  end.

(** The status line an invocation starts its answer with. *)
Definition status_line (w : world) (file_path : list byte) : list byte :=
  match servable w file_path with
  | Some _ => STATUS_200
  | None => STATUS_404
  end.

(** ** Notions for the calls an invocation makes *)

Definition is_sendfile (e : event) : bool :=
  match e with
  | EvSendfile _ _ _ _ _ _ => true
  | _ => false
  end.

(** The bytes the [sendfile] calls of a log put on [sockfd]: the body. *)
Definition body_sent (sockfd : Z) (l : list event) : list byte :=
  bytes_on sockfd (filter is_sendfile l).

(** [a] is [b] with some of its bytes left out, the others in order. *)
Inductive subsequence : list byte -> list byte -> Prop :=
| subsequence_nil : forall b, subsequence [] b
| subsequence_skip : forall a b x, subsequence a b -> subsequence a (x :: b)
| subsequence_take : forall a b x,
    subsequence a b -> subsequence (x :: a) (x :: b).

(** A [sendfile] call as the loop makes them: from the opened file to the
    socket, asked for the size of the file, at an offset inside the file,
    moving the bytes that start there. *)
Definition sendfile_call (sockfd file_fd : Z) (ino : inode) (e : event)
  : Prop :=
  match e with
  | EvSendfile out_fd in_fd offset count data ret =>
      out_fd = sockfd /\ in_fd = file_fd /\
      count = Z.of_nat (List.length (i_data ino)) /\
      0 <= offset < Z.of_nat (List.length (i_data ino)) /\
      -1 <= ret <= Z.of_nat (List.length (i_data ino)) - offset /\
      data = firstn (Z.to_nat ret) (skipn (Z.to_nat offset) (i_data ino))
  | _ => False
  end.

(** The strings the source passes to [write_message]. *)
Definition fragments : list (list byte) :=
  [ STATUS_200; STATUS_404; CONTENT_TYPE; END_OF_HEADERS;
    lit "text/html"; lit "image/jpeg"; lit "text/javascript";
    lit "text/css"; lit "application/octet-stream" ].

(** A [write_message] call on [sockfd] with one of [messages]. *)
Definition write_call (sockfd : Z) (messages : list (list byte)) (e : event)
  : Prop :=
  match e with
  | EvWrite fd buf _ => fd = sockfd /\ In buf messages
  | EvPerror _ => True
  | _ => False
  end.

(** A call of an invocation of [send_http_response] in [w] for [file_path]. *)
Definition response_call (w : world) (sockfd : Z) (file_path : list byte)
    (e : event) : Prop :=
  match e with
  | EvOpen pathname _ => pathname = c_str file_path
  | EvFstat fd ret => fd = fresh_fd (fdtable w) /\ ret = 0
  | EvWrite fd buf _ => fd = sockfd /\ In buf fragments
  | EvPerror _ => True
  | EvSendfile _ _ _ _ _ _ =>
      exists ino,
        servable w file_path = Some ino /\
        sendfile_call sockfd (fresh_fd (fdtable w)) ino e
  end.

(** The [write] of a whole message, accepted whole. *)
Definition whole_write (sockfd : Z) (m : list byte) : event :=
  EvWrite sockfd m (Z.of_nat (List.length m)).

(** ** Facts about the string functions *)

Lemma byte_eqb_refl (c : byte) : Byte.eqb c c = true.
Proof. now apply Byte.byte_dec_lb. Qed.

Lemma byte_eqb_eq (a b : byte) : Byte.eqb a b = true <-> a = b.
Proof.
  split; [apply Byte.byte_dec_bl | apply Byte.byte_dec_lb].
Qed.

Lemma byte_eqb_neq (a b : byte) : Byte.eqb a b = false <-> a <> b.
Proof.
  split.
  - apply Byte.eqb_false.
  - intros Hne. destruct (Byte.eqb a b) eqn:E; [|reflexivity].
    apply byte_eqb_eq in E. contradiction.
Qed.

Lemma uchar_inj (a b : byte) : uchar a = uchar b -> a = b.
Proof.
  unfold uchar. intros H. apply N2Z.inj in H.
  assert (E : Byte.of_N (Byte.to_N a) = Byte.of_N (Byte.to_N b)) by now rewrite H.
  rewrite !Byte.of_to_N in E. now inversion E.
Qed.

Lemma bytes_eqb_eq (a b : list byte) : bytes_eqb a b = true <-> a = b.
Proof.
  revert b. induction a as [|x a IH]; intros [|y b]; simpl; try easy.
  rewrite andb_true_iff, byte_eqb_eq, IH. split.
  - now intros [-> ->].
  - intros E. now inversion E.
Qed.

Lemma bytes_eqb_refl (a : list byte) : bytes_eqb a a = true.
Proof. now apply bytes_eqb_eq. Qed.

Lemma strlen_nonneg (s : list byte) : 0 <= strlen s.
Proof.
  induction s as [|c s IH]; cbn [strlen]; [lia|].
  destruct (Byte.eqb c NUL); lia.
Qed.

Lemma strlen_c_str (s : list byte) :
  strlen s = Z.of_nat (List.length (c_str s)).
Proof.
  induction s as [|c s IH]; cbn [strlen c_str]; [reflexivity|].
  destruct (Byte.eqb c NUL); cbn [List.length]; [reflexivity|lia].
Qed.

Lemma firstn_strlen (s : list byte) :
  firstn (Z.to_nat (strlen s)) s = c_str s.
Proof.
  induction s as [|c s IH]; cbn [strlen c_str]; [reflexivity|].
  destruct (Byte.eqb c NUL); [reflexivity|].
  pose proof (strlen_nonneg s).
  replace (Z.to_nat (1 + strlen s)) with (S (Z.to_nat (strlen s))) by lia.
  cbn [firstn]. now rewrite IH.
Qed.

Lemma c_str_nul_free (s : list byte) : nul_free s = true -> c_str s = s.
Proof.
  induction s as [|c s IH]; simpl; [reflexivity|].
  rewrite andb_true_iff, negb_true_iff. intros [-> Hs]. now rewrite IH.
Qed.

Lemma c_str_app_nul (pre post : list byte) :
  nul_free pre = true -> c_str (pre ++ NUL :: post) = pre.
Proof.
  induction pre as [|c pre IH]; simpl; [reflexivity|].
  rewrite andb_true_iff, negb_true_iff. intros [-> Hs]. now rewrite IH.
Qed.

Lemma strlen_nul_free (s : list byte) :
  nul_free s = true -> strlen s = Z.of_nat (List.length s).
Proof. intros H. now rewrite strlen_c_str, c_str_nul_free. Qed.

(** [strcmp] answers 0 exactly when the two pointers denote the same string. *)
Lemma strcmp_zero (a b : list byte) : strcmp a b = 0 <-> c_str a = c_str b.
Proof.
  assert (nonzero : forall c, Byte.eqb c NUL = false -> uchar c <> 0).
  { intros c E H. apply byte_eqb_neq in E. apply E. now apply uchar_inj. }
  revert b. induction a as [|x a IH]; intros b.
  - destruct b as [|y b]; cbn [strcmp c_str hd]; [easy|].
    destruct (Byte.eqb y NUL) eqn:E.
    + apply byte_eqb_eq in E. subst y. easy.
    + specialize (nonzero y E). split; [lia|discriminate].
  - cbn [strcmp c_str]. destruct b as [|y b]; cbn [hd tl c_str].
    + destruct (Byte.eqb x NUL) eqn:E; [easy|].
      specialize (nonzero x E). change (uchar NUL) with 0.
      split; [lia|discriminate].
    + destruct (Byte.eqb x y) eqn:Exy.
      * apply byte_eqb_eq in Exy. subst y.
        destruct (Byte.eqb x NUL); [easy|].
        rewrite IH. split; [now intros ->|]. intros H. now inversion H.
      * apply byte_eqb_neq in Exy. split.
        -- intros H. exfalso. apply Exy. apply uchar_inj. lia.
        -- destruct (Byte.eqb x NUL) eqn:Ex, (Byte.eqb y NUL) eqn:Ey;
             try discriminate.
           ++ apply byte_eqb_eq in Ex, Ey. congruence.
           ++ intros H. inversion H. contradiction.
Qed.

(** Against a literal, [strcmp] tests the string the pointer denotes. *)
Lemma strcmp_literal (q k : list byte) :
  nul_free k = true ->
  (strcmp q k =? SAME_STRING) = bytes_eqb (c_str q) k.
Proof.
  intros Hk. unfold SAME_STRING.
  destruct (bytes_eqb (c_str q) k) eqn:E.
  - apply bytes_eqb_eq in E. apply Z.eqb_eq, strcmp_zero.
    now rewrite (c_str_nul_free k).
  - apply Z.eqb_neq. rewrite strcmp_zero, (c_str_nul_free k) by assumption.
    intros H. rewrite H, bytes_eqb_refl in E. discriminate.
Qed.

(** [strrchr] finds in the object what the specification calls the suffix
    from the last delimiter of the path string. *)
Lemma strrchr_c_str (p : list byte) (d : byte) :
  d <> NUL ->
  option_map c_str (strrchr p d) = suffix_from_last d (c_str p).
Proof.
  intros Hd. apply byte_eqb_neq in Hd.
  induction p as [|h t IH]; cbn [strrchr c_str].
  - now rewrite Hd.
  - destruct (Byte.eqb h NUL) eqn:Eh.
    + now rewrite Hd.
    + cbn [suffix_from_last]. rewrite <- IH.
      destruct (strrchr t d) as [q|]; [reflexivity|].
      cbn [option_map]. destruct (Byte.eqb h d); [|reflexivity].
      cbn [option_map c_str]. now rewrite Eh.
Qed.

Lemma suffix_from_last_none (d : byte) (p : list byte) :
  ~ In d p -> suffix_from_last d p = None.
Proof.
  induction p as [|c p IH]; simpl; [reflexivity|].
  intros H. rewrite IH by tauto.
  destruct (Byte.eqb c d) eqn:E; [|reflexivity].
  apply byte_eqb_eq in E. subst. tauto.
Qed.

Lemma suffix_from_last_app (d : byte) (pre ext : list byte) :
  ~ In d ext -> suffix_from_last d (pre ++ d :: ext) = Some (d :: ext).
Proof.
  intros H. induction pre as [|c pre IH]; simpl.
  - now rewrite suffix_from_last_none, byte_eqb_refl.
  - now rewrite IH.
Qed.

(** ** Facts about the system calls *)

Lemma moved_range (o : option outcome) (most : Z) :
  0 <= most -> -1 <= moved o most <= most.
Proof. destruct o as [[|k|]|]; cbn [moved]; lia. Qed.

Lemma to_int_small (z : Z) :
  -2147483648 <= z < 2147483648 -> to_int z = z.
Proof.
  intros H. unfold to_int.
  rewrite Z.mod_small by lia. lia.
Qed.

Lemma write_ret_range (w : world) (m : list byte) :
  -1 <= write_ret w m <= Z.min (strlen m) MAX_RW_COUNT.
Proof.
  unfold write_ret. apply moved_range.
  pose proof (strlen_nonneg m). unfold MAX_RW_COUNT. lia.
Qed.

(** The count [write] returns always fits the [int] it is stored in. *)
Lemma to_int_write_ret (w : world) (m : list byte) :
  to_int (write_ret w m) = write_ret w m.
Proof.
  pose proof (write_ret_range w m) as H. unfold MAX_RW_COUNT in H.
  apply to_int_small. lia.
Qed.

(** [write_message] in closed form: one [write] of the string, one outcome
    used, and the answer is the sign of what [write] returned. *)
Lemma write_message_eq (w : world) (s : Z) (m : list byte) :
  write_message w s m =
  ({| fs := fs w; fdtable := fdtable w; pending := tl (pending w);
      log := log w ++ write_message_events s m (write_ret w m) |},
   0 <=? write_ret w m).
Proof.
  unfold write_message, write. fold (write_ret w m).
  rewrite to_int_write_ret, firstn_strlen.
  unfold write_message_events, perror, record, consume. cbn.
  destruct (write_ret w m <? 0) eqn:E.
  - rewrite <- app_assoc. cbn.
    replace (0 <=? write_ret w m) with false by (symmetry; lia).
    reflexivity.
  - replace (0 <=? write_ret w m) with true by (symmetry; lia).
    reflexivity.
Qed.

Lemma eqb_write_error (r : bool) : Bool.eqb r WRITE_ERROR = negb r.
Proof. now destruct r. Qed.

(** One case for each comparison of the extension in the goal. *)
Ltac extension_cases :=
  repeat match goal with
         | |- context [if ?c =? SAME_STRING then _ else _] =>
             destruct (c =? SAME_STRING)
         end.

(** [write_content_type] is one [write_message] of the type it picked, and
    hands the answer of that call to its caller. *)
Lemma write_content_type_eq (w : world) (s : Z) (p : list byte) :
  write_content_type w s p = write_message w s (content_type_written p).
Proof.
  unfold write_content_type, content_type_written.
  destruct (strrchr p FILE_EXTENSION_DELIMITER) as [ext|].
  - extension_cases; rewrite write_message_eq; cbn;
      now destruct (0 <=? write_ret w _).
  - rewrite write_message_eq; cbn. now destruct (0 <=? write_ret w _).
Qed.

(** The type written is the one the specification's resolver gives for
    the path string. *)
Lemma content_type_written_eq (p : list byte) :
  content_type_written p = resolve_content_type (c_str p).
Proof.
  unfold content_type_written, resolve_content_type.
  change FILE_EXTENSION_DELIMITER with x2e.
  rewrite <- strrchr_c_str by discriminate.
  destruct (strrchr p x2e) as [q|]; [|reflexivity].
  cbn [option_map]. unfold mime_of_suffix.
  rewrite !strcmp_literal by reflexivity.
  reflexivity.
Qed.

Lemma lowest_free_ge (used : list Z) (n : nat) :
  forall fd, fd <= lowest_free used fd n.
Proof.
  induction n as [|n IH]; intros fd; cbn [lowest_free]; [lia|].
  destruct (existsb (Z.eqb fd) used); [|lia].
  specialize (IH (fd + 1)). lia.
Qed.

Lemma lowest_free_spec (used : list Z) (n : nat) :
  forall fd,
    ~ In (lowest_free used fd n) used \/
    (lowest_free used fd n = fd + Z.of_nat n /\
     forall i, (i < n)%nat -> In (fd + Z.of_nat i) used).
Proof.
  induction n as [|n IH]; intros fd; cbn [lowest_free].
  - right. split; [lia|]. intros i Hi. lia.
  - destruct (existsb (Z.eqb fd) used) eqn:E.
    + destruct (IH (fd + 1)) as [H|[H1 H2]]; [now left|right].
      split; [lia|]. intros [|i] Hi.
      * apply existsb_exists in E. destruct E as [x [Hx Ex]].
        apply Z.eqb_eq in Ex. subst x. now rewrite Z.add_0_r.
      * replace (fd + Z.of_nat (S i)) with (fd + 1 + Z.of_nat i) by lia.
        apply H2. lia.
    + left. intros H.
      assert (existsb (Z.eqb fd) used = true); [|congruence].
      apply existsb_exists. exists fd. split; [assumption|apply Z.eqb_refl].
Qed.

Lemma fresh_fd_nonneg (tbl : list (Z * inode)) : 0 <= fresh_fd tbl.
Proof. apply lowest_free_ge. Qed.

(** The descriptor [open] returns was not open before. *)
Lemma fresh_fd_not_in (tbl : list (Z * inode)) :
  ~ In (fresh_fd tbl) (map fst tbl).
Proof.
  unfold fresh_fd.
  destruct (lowest_free_spec (map fst tbl) (List.length tbl) 0) as [H|[H1 H2]];
    [assumption|].
  rewrite H1. intros Hin.
  set (n := List.length tbl) in *.
  assert (Hincl : incl (map Z.of_nat (seq 0 (S n))) (map fst tbl)).
  { intros z Hz. apply in_map_iff in Hz. destruct Hz as [i [<- Hi]].
    apply in_seq in Hi.
    destruct (Nat.eq_dec i n) as [->|Hne]; [exact Hin|].
    apply (H2 i). lia. }
  assert (Hnd : NoDup (map Z.of_nat (seq 0 (S n)))).
  { apply Injective_map_NoDup; [|apply seq_NoDup].
    intros a b. apply Nat2Z.inj. }
  pose proof (NoDup_incl_length Hnd Hincl) as Hlen.
  rewrite !length_map, length_seq in Hlen. unfold n in Hlen. lia.
Qed.

Lemma open_eq (w : world) (p : list byte) :
  open w p O_RDONLY =
  match openable w p with
  | Some ino =>
      ({| fs := fs w; fdtable := (fresh_fd (fdtable w), ino) :: fdtable w;
          pending := pending w;
          log := log w ++ [EvOpen (c_str p) (fresh_fd (fdtable w))] |},
       fresh_fd (fdtable w))
  | None => (record w (EvOpen (c_str p) (-1)), -1)
  end.
Proof.
  unfold open, openable.
  destruct (lookup_path (fs w) (c_str p)) as [ino|]; [|reflexivity].
  now destruct (i_readable ino).
Qed.

(** [open] fails exactly on the paths [openable] has nothing for. *)
Lemma open_fails_iff (w : world) (p : list byte) :
  snd (open w p O_RDONLY) < 0 <-> openable w p = None.
Proof.
  rewrite open_eq. pose proof (fresh_fd_nonneg (fdtable w)) as H.
  destruct (openable w p); cbn [snd]; split; intros E;
    try reflexivity; try discriminate; lia.
Qed.

(** ** Facts about what the log says *)

Lemma bytes_on_app (fd : Z) (a b : list event) :
  bytes_on fd (a ++ b) = bytes_on fd a ++ bytes_on fd b.
Proof. apply flat_map_app. Qed.

Lemma bytes_on_transfers (fd : Z) (l : list event) :
  bytes_on fd l = bytes_on fd (transfers l).
Proof.
  induction l as [|e l IH]; [reflexivity|].
  destruct e; cbn [transfers filter is_transfer bytes_on flat_map event_bytes];
    fold (transfers l); fold (bytes_on fd l); fold (bytes_on fd (transfers l));
    now rewrite IH.
Qed.

Lemma transfers_app (a b : list event) :
  transfers (a ++ b) = transfers a ++ transfers b.
Proof. apply filter_app. Qed.

Lemma failed_is_transfer (e : event) : failed e = true -> is_transfer e = true.
Proof. now destruct e. Qed.

Lemma no_transfer_no_bytes (l : list event) :
  forallb (fun e => negb (is_transfer e)) l = true ->
  transfers l = [].
Proof.
  induction l as [|e l IH]; [reflexivity|].
  cbn [forallb transfers filter]. rewrite andb_true_iff, negb_true_iff.
  intros [-> H]. now apply IH.
Qed.

Lemma halts_at_failure_app (a b : list event) :
  forallb (fun e => negb (failed e)) a = true ->
  halts_at_failure (a ++ b) = halts_at_failure b.
Proof.
  induction a as [|e a IH]; [reflexivity|].
  cbn [forallb app halts_at_failure]. rewrite andb_true_iff, negb_true_iff.
  intros [-> H]. now apply IH.
Qed.

(** What [halts_at_failure] computes, said with lists. *)
Lemma halts_at_failure_spec (l : list event) :
  halts_at_failure l = true ->
  forall before e after,
    l = before ++ e :: after -> failed e = true -> transfers after = [].
Proof.
  induction l as [|x l IH]; intros H before e after E He.
  - now destruct before.
  - cbn [halts_at_failure] in H. destruct before as [|b before].
    + cbn [app] in E. inversion E. subst x l. rewrite He in H.
      now apply no_transfer_no_bytes.
    + cbn [app] in E. inversion E. subst b l.
      destruct (failed x) eqn:Ex.
      * rewrite forallb_app in H. cbn [forallb] in H.
        apply failed_is_transfer in He. rewrite He in H. cbn in H.
        rewrite andb_false_r in H. discriminate.
      * eapply IH; eauto.
Qed.

Lemma write_message_events_halt (s : Z) (m : list byte) (n : Z) :
  halts_at_failure (write_message_events s m n) = true.
Proof.
  unfold write_message_events. cbn [halts_at_failure failed].
  now destruct (n <? 0).
Qed.

Lemma write_message_events_ok (s : Z) (m : list byte) (n : Z) :
  0 <= n -> write_message_events s m n = [EvWrite s (c_str m) n].
Proof.
  intros H. unfold write_message_events.
  now replace (n <? 0) with false by (symmetry; lia).
Qed.

(** ** The header writes *)

Lemma write_all_shape (msgs : list (list byte)) :
  forall (w : world) (s : Z),
  exists new,
    fs (fst (write_all w s msgs)) = fs w /\
    fdtable (fst (write_all w s msgs)) = fdtable w /\
    log (fst (write_all w s msgs)) = log w ++ new /\
    (List.length (pending (fst (write_all w s msgs)))
     <= List.length (pending w))%nat /\
    halts_at_failure new = true /\
    (snd (write_all w s msgs) = WRITE_SUCCESSFUL ->
     forallb (fun e => negb (failed e)) new = true) /\
    (forall m rest, msgs = m :: rest ->
       exists tail,
         transfers new = EvWrite s (c_str m) (write_ret w m) :: tail).
Proof.
  induction msgs as [|m msgs IH]; intros w s.
  - exists []. cbn. rewrite app_nil_r. repeat split; try reflexivity.
    intros m rest E. discriminate.
  - cbn [write_all]. rewrite write_message_eq, eqb_write_error.
    destruct (0 <=? write_ret w m) eqn:E; cbn [negb].
    + match goal with |- context [write_all ?w1 s msgs] =>
        destruct (IH w1 s) as [new [H1 [H2 [H3 [H4 [H5 [H6 _]]]]]]]
      end.
      cbn [fs fdtable log pending] in H1, H2, H3, H4.
      rewrite write_message_events_ok in * by lia.
      exists (EvWrite s (c_str m) (write_ret w m) :: new).
      repeat split.
      * exact H1.
      * exact H2.
      * rewrite H3, <- app_assoc. reflexivity.
      * etransitivity; [exact H4|]. destruct (pending w); cbn; lia.
      * cbn [halts_at_failure failed].
        now replace (write_ret w m <? 0) with false by (symmetry; lia).
      * intros Hr. cbn [forallb failed].
        replace (write_ret w m <? 0) with false by (symmetry; lia).
        cbn. now apply H6.
      * intros m' rest E'. inversion E'. subst m' rest.
        exists (transfers new). reflexivity.
    + exists (write_message_events s m (write_ret w m)).
      cbn [fst snd fs fdtable log pending].
      repeat split.
      * destruct (pending w); cbn; lia.
      * apply write_message_events_halt.
      * discriminate.
      * intros m' rest E'. inversion E'. subst m' rest.
        unfold write_message_events. cbn [transfers filter is_transfer].
        eexists. reflexivity.
Qed.

Lemma all_full_tl (l : list outcome) : all_full l -> all_full (tl l).
Proof. intros H. destruct l; [exact H|]. now inversion H. Qed.

Lemma all_full_moved (l : list outcome) (most : Z) :
  all_full l -> moved (hd_error l) most = most.
Proof.
  intros H. destruct l as [|o l]; [reflexivity|].
  inversion H. subst. reflexivity.
Qed.

(** When every call is complete, the whole of each message is accepted. *)
Lemma write_all_full (msgs : list (list byte)) :
  forall (w : world) (s : Z),
    all_full (pending w) ->
    Forall (fun m => nul_free m = true /\
                     Z.of_nat (List.length m) <= MAX_RW_COUNT) msgs ->
    exists w1,
      write_all w s msgs = (w1, WRITE_SUCCESSFUL) /\
      fs w1 = fs w /\ fdtable w1 = fdtable w /\
      all_full (pending w1) /\
      log w1 = log w
               ++ map (fun m => EvWrite s m (Z.of_nat (List.length m))) msgs.
Proof.
  induction msgs as [|m msgs IH]; intros w s Hfull Hm.
  - exists w. cbn. rewrite app_nil_r. repeat split. exact Hfull.
  - inversion Hm as [|? ? [Hnul Hlen] Hrest]. subst.
    cbn [write_all]. rewrite write_message_eq, eqb_write_error.
    assert (Hret : write_ret w m = Z.of_nat (List.length m)).
    { unfold write_ret. rewrite all_full_moved by assumption.
      rewrite strlen_nul_free by assumption. lia. }
    rewrite Hret, write_message_events_ok, c_str_nul_free by (assumption || lia).
    replace (0 <=? Z.of_nat (List.length m)) with true by (symmetry; lia).
    cbn [negb].
    match goal with |- context [write_all ?w1 s msgs] =>
      destruct (IH w1 s) as [w2 [H1 [H2 [H3 [H4 H5]]]]];
        [now apply all_full_tl | assumption |]
    end.
    exists w2. cbn [fs fdtable log pending] in *.
    repeat split; try assumption.
    rewrite H5, <- app_assoc. reflexivity.
Qed.

Lemma bytes_on_whole_writes (s : Z) (msgs : list (list byte)) :
  bytes_on s (map (fun m => EvWrite s m (Z.of_nat (List.length m))) msgs)
  = List.concat msgs.
Proof.
  induction msgs as [|m msgs IH]; [reflexivity|].
  cbn [map bytes_on flat_map event_bytes List.concat].
  rewrite Z.eqb_refl, Nat2Z.id, firstn_all. f_equal. exact IH.
Qed.

Lemma content_type_written_cases (p : list byte) :
  In (content_type_written p)
     [lit "text/html"; lit "image/jpeg"; lit "text/javascript";
      lit "text/css"; lit "application/octet-stream"].
Proof.
  unfold content_type_written.
  destruct (strrchr p FILE_EXTENSION_DELIMITER) as [ext|]; [|cbn; tauto].
  extension_cases; cbn; tauto.
Qed.

Lemma literal_well_formed (m : list byte) :
  nul_free m = true -> (List.length m <= 64)%nat ->
  nul_free m = true /\ Z.of_nat (List.length m) <= MAX_RW_COUNT.
Proof. intros H L. split; [exact H|]. unfold MAX_RW_COUNT. lia. Qed.

Lemma headers_well_formed (p : list byte) :
  Forall (fun m => nul_free m = true /\
                   Z.of_nat (List.length m) <= MAX_RW_COUNT) (headers p).
Proof.
  unfold headers.
  constructor; [apply literal_well_formed; [reflexivity|cbn; lia]|].
  constructor; [apply literal_well_formed; [reflexivity|cbn; lia]|].
  constructor.
  - destruct (content_type_written_cases p)
      as [<-|[<-|[<-|[<-|[<-|[]]]]]];
      (apply literal_well_formed; [reflexivity|cbn; lia]).
  - constructor; [apply literal_well_formed; [reflexivity|cbn; lia]|].
    constructor.
Qed.

(** ** The body-transfer loop *)

Lemma sendfile_loop_done (fuel : nat) (w : world) (s fd size total : Z) :
  size <= total ->
  sendfile_loop fuel w s fd size total = Some (w, total, false).
Proof.
  intros H. destruct fuel; cbn [sendfile_loop];
    now replace (total <? size) with false by (symmetry; lia).
Qed.

Lemma length_rest (data : list byte) (total : Z) :
  0 <= total <= Z.of_nat (List.length data) ->
  Z.of_nat (List.length (skipn (Z.to_nat total) data))
  = Z.of_nat (List.length data) - total.
Proof. intros H. rewrite length_skipn. lia. Qed.

(** With the descriptor open on a file of the size the loop was given, the
    loop ends within one round more than there are scripted outcomes; it
    leaves the file system and the descriptor table alone, and makes no
    call after one that failed. *)
Lemma sendfile_loop_shape (fuel : nat) :
  forall (w : world) (s fd total : Z) (ino : inode),
    lookup_fd (fdtable w) fd = Some ino ->
    0 <= total ->
    (List.length (pending w) < fuel)%nat ->
    exists w' total' left new,
      sendfile_loop fuel w s fd (Z.of_nat (List.length (i_data ino))) total
      = Some (w', total', left) /\
      fs w' = fs w /\ fdtable w' = fdtable w /\
      log w' = log w ++ new /\
      halts_at_failure new = true.
Proof.
  induction fuel as [|fuel IH]; intros w s fd total ino Hfd Htot Hfuel; [lia|].
  set (size := Z.of_nat (List.length (i_data ino))).
  destruct (total <? size) eqn:Elt.
  2:{ exists w, total, false, []. rewrite sendfile_loop_done by lia.
      rewrite app_nil_r. repeat split. }
  cbn [sendfile_loop]. rewrite Elt. unfold sendfile. rewrite Hfd.
  fold size. rewrite length_rest by (fold size; lia). fold size.
  replace (Z.max 0 (Z.min size (size - total))) with (size - total) by lia.
  set (ret := moved (hd_error (pending w)) (size - total)).
  assert (Hret : -1 <= ret <= size - total) by (apply moved_range; lia).
  set (data := firstn (Z.to_nat ret) (skipn (Z.to_nat total) (i_data ino))).
  set (ev := EvSendfile s fd total size data ret).
  destruct (ret <? 0) eqn:Eneg.
  - replace (ret >=? 0) with false by (symmetry; lia).
    exists (record (consume w) ev), total, true, [ev].
    repeat split. cbn [halts_at_failure failed ev]. now rewrite Eneg.
  - replace (ret >=? 0) with true by (symmetry; lia).
    destruct (pending w) as [|o rest] eqn:Ep.
    + (* the script is used up: the call took all that was left *)
      assert (ret = size - total) by reflexivity.
      rewrite sendfile_loop_done by lia.
      exists (record (consume w) ev), (total + ret + ret), false, [ev].
      repeat split. cbn [halts_at_failure failed ev]. now rewrite Eneg.
    + destruct (IH (record (consume w) ev) s fd (total + ret + ret) ino)
        as [w' [total' [left [new [H1 [H2 [H3 [H4 H5]]]]]]]].
      * exact Hfd.
      * lia.
      * cbn [record consume pending]. rewrite Ep. cbn in *. lia.
      * exists w', total', left, (ev :: new).
        cbn [record consume fs fdtable log] in *.
        repeat split; try assumption.
        -- rewrite H4, <- app_assoc. reflexivity.
        -- cbn [halts_at_failure failed ev]. now rewrite Eneg.
Qed.

(** When every call is complete, one [sendfile] moves the whole file, and
    the loop is left with [total_num_bytes_sent] at twice the size. *)
Lemma sendfile_loop_full (fuel : nat) (w : world) (s fd : Z) (ino : inode) :
  lookup_fd (fdtable w) fd = Some ino ->
  all_full (pending w) ->
  (0 < fuel)%nat ->
  exists w' new,
    sendfile_loop fuel w s fd (Z.of_nat (List.length (i_data ino))) 0
    = Some (w', 2 * Z.of_nat (List.length (i_data ino)), false) /\
    fs w' = fs w /\ fdtable w' = fdtable w /\
    log w' = log w ++ new /\
    bytes_on s new = i_data ino.
Proof.
  intros Hfd Hfull Hfuel.
  set (size := Z.of_nat (List.length (i_data ino))).
  destruct (0 <? size) eqn:Elt.
  2:{ exists w, []. rewrite sendfile_loop_done by lia.
      replace (2 * size) with 0 by lia.
      rewrite app_nil_r. repeat split.
      destruct (i_data ino); [reflexivity|]. cbn in size. lia. }
  destruct fuel as [|fuel]; [lia|].
  cbn [sendfile_loop]. rewrite Elt. unfold sendfile. rewrite Hfd.
  change (Z.to_nat 0) with 0%nat. cbn [skipn]. fold size.
  replace (Z.max 0 (Z.min size size)) with size by lia.
  rewrite all_full_moved by assumption.
  replace (size <? 0) with false by (symmetry; lia).
  replace (size >=? 0) with true by (symmetry; lia).
  rewrite sendfile_loop_done by lia.
  replace (firstn (Z.to_nat size) (i_data ino)) with (i_data ino)
    by (unfold size; now rewrite Nat2Z.id, firstn_all).
  replace (0 + size + size) with (2 * size) by lia.
  eexists _, [_]. repeat split.
  cbn [bytes_on flat_map event_bytes]. rewrite Z.eqb_refl. apply app_nil_r.
Qed.

(** ** The three ways through [send_http_response] *)

Lemma servable_openable (w : world) (p : list byte) (ino : inode) :
  servable w p = Some ino ->
  openable w p = Some ino /\ S_ISREG (i_mode ino) = true.
Proof.
  unfold servable. destruct (openable w p) as [i|]; [|discriminate].
  destruct (S_ISREG (i_mode i)) eqn:E; [|discriminate].
  intros H. inversion H. subst. now split.
Qed.

Lemma c_str_STATUS_404 : c_str STATUS_404 = STATUS_404.
Proof. reflexivity. Qed.

Lemma c_str_STATUS_200 : c_str STATUS_200 = STATUS_200.
Proof. reflexivity. Qed.

(** The 404 answer: nothing but the one [write_message]. *)
Lemma send_404 (fuel : nat) (w : world) (s : Z) (p : list byte) :
  servable w p = None ->
  exists w' pre,
    send_http_response fuel w s p = Some w' /\
    fs w' = fs w /\
    fdtable w' = newly_opened w p ++ fdtable w /\
    pending w' = tl (pending w) /\
    transfers pre = [] /\
    log w' = log w ++ pre
             ++ write_message_events s STATUS_404 (write_ret w STATUS_404).
Proof.
  intros Hs. unfold servable in Hs. unfold newly_opened.
  unfold send_http_response. rewrite open_eq.
  destruct (openable w p) as [ino|].
  - pose proof (fresh_fd_nonneg (fdtable w)) as Hfd.
    replace (fresh_fd (fdtable w) <? 0) with false by (symmetry; lia).
    unfold fstat. cbn [fdtable lookup_fd]. rewrite Z.eqb_refl.
    cbn [st_mode]. destruct (S_ISREG (i_mode ino)); [discriminate|].
    rewrite write_message_eq.
    exists (fst (write_message
                   (record {| fs := fs w;
                              fdtable := (fresh_fd (fdtable w), ino) :: fdtable w;
                              pending := pending w;
                              log := log w ++ [EvOpen (c_str p) (fresh_fd (fdtable w))] |}
                           (EvFstat (fresh_fd (fdtable w)) 0))
                   s STATUS_404)),
           [EvOpen (c_str p) (fresh_fd (fdtable w));
            EvFstat (fresh_fd (fdtable w)) 0].
    rewrite write_message_eq. cbn [fst record fs fdtable pending log].
    repeat split.
    + now destruct (Bool.eqb _ _).
    + unfold write_ret. cbn [pending]. rewrite <- !app_assoc. reflexivity.
  - change (-1 <? 0) with true. cbv iota.
    rewrite write_message_eq.
    exists (fst (write_message (record w (EvOpen (c_str p) (-1))) s STATUS_404)),
           [EvOpen (c_str p) (-1)].
    rewrite write_message_eq. cbn [fst record fs fdtable pending log].
    repeat split.
    + now destruct (Bool.eqb _ _).
    + unfold write_ret. cbn [pending]. rewrite <- !app_assoc. reflexivity.
Qed.

(** The 200 answer: the four header writes, then the loop. *)
Lemma send_200_eq (fuel : nat) (w : world) (s : Z) (p : list byte)
    (ino : inode) :
  servable w p = Some ino ->
  send_http_response fuel w s p =
  let fd := fresh_fd (fdtable w) in
  let w0 := {| fs := fs w; fdtable := (fd, ino) :: fdtable w;
               pending := pending w;
               log := (log w ++ [EvOpen (c_str p) fd]) ++ [EvFstat fd 0] |} in
  if snd (write_all w0 s (headers p)) then
    match sendfile_loop fuel (fst (write_all w0 s (headers p))) s fd
                        (Z.of_nat (List.length (i_data ino))) 0 with
    | Some (w2, _, _) => Some w2
    | None => None
    end
  else Some (fst (write_all w0 s (headers p))).
Proof.
  intros Hs. apply servable_openable in Hs. destruct Hs as [Hopen Hreg].
  unfold send_http_response. rewrite open_eq, Hopen.
  pose proof (fresh_fd_nonneg (fdtable w)) as Hfd.
  replace (fresh_fd (fdtable w) <? 0) with false by (symmetry; lia).
  unfold fstat. cbn [fdtable lookup_fd]. rewrite Z.eqb_refl.
  cbn [st_mode st_size]. rewrite Hreg.
  unfold headers. cbn [write_all record fs fdtable pending log].
  cbv zeta.
  destruct (write_message _ s STATUS_200) as [w1 [|]]; cbn [Bool.eqb WRITE_ERROR];
    [|reflexivity].
  destruct (write_message w1 s CONTENT_TYPE) as [w2 [|]]; cbn [Bool.eqb];
    [|reflexivity].
  rewrite write_content_type_eq.
  destruct (write_message w2 s (content_type_written p)) as [w3 [|]];
    cbn [Bool.eqb]; [|reflexivity].
  destruct (write_message w3 s END_OF_HEADERS) as [w4 [|]]; cbn [Bool.eqb];
    reflexivity.
Qed.

Lemma no_transfers_none_failed (l : list event) :
  transfers l = [] -> forallb (fun e => negb (failed e)) l = true.
Proof.
  induction l as [|e l IH]; [reflexivity|].
  cbn [transfers filter forallb]. destruct e; cbn [is_transfer failed negb andb];
    try discriminate; exact IH.
Qed.

Lemma transfers_write_message_events (s : Z) (m : list byte) (n : Z) :
  transfers (write_message_events s m n) = [EvWrite s (c_str m) n].
Proof. unfold write_message_events. now destruct (n <? 0). Qed.

(** Every invocation, whatever the path and whatever the transfer calls
    do: it returns; it leaves the file system alone; the descriptor table
    grows by the file it opened; it makes no transfer call after one that
    failed; and its first transfer call is the [write] of its status line. *)
Lemma send_http_response_shape (fuel : nat) (w : world) (s : Z)
    (p : list byte) :
  (List.length (pending w) < fuel)%nat ->
  exists w' new tail,
    send_http_response fuel w s p = Some w' /\
    fs w' = fs w /\
    fdtable w' = newly_opened w p ++ fdtable w /\
    log w' = log w ++ new /\
    halts_at_failure new = true /\
    transfers new
    = EvWrite s (status_line w p) (write_ret w (status_line w p)) :: tail.
Proof.
  intros Hfuel. unfold status_line.
  destruct (servable w p) as [ino|] eqn:Hs.
  - rewrite (send_200_eq fuel w s p ino Hs). cbv zeta.
    destruct (servable_openable _ _ _ Hs) as [Hopen Hreg].
    unfold newly_opened. rewrite Hopen.
    set (fd := fresh_fd (fdtable w)).
    set (w0 := {| fs := fs w; fdtable := (fd, ino) :: fdtable w;
                  pending := pending w;
                  log := (log w ++ [EvOpen (c_str p) fd]) ++ [EvFstat fd 0] |}).
    destruct (write_all_shape (headers p) w0 s)
      as [new [H1 [H2 [H3 [H4 [H5 [H6 H7]]]]]]].
    destruct (H7 _ _ eq_refl) as [tail Ht].
    rewrite c_str_STATUS_200 in Ht.
    change (write_ret w0 STATUS_200) with (write_ret w STATUS_200) in Ht.
    cbn [w0 fs fdtable log pending] in H1, H2, H3, H4.
    destruct (snd (write_all w0 s (headers p))) eqn:Er.
    + destruct (sendfile_loop_shape fuel (fst (write_all w0 s (headers p)))
                  s fd 0 ino)
        as [w' [total' [left [new2 [L1 [L2 [L3 [L4 L5]]]]]]]].
      * rewrite H2. cbn [lookup_fd]. now rewrite Z.eqb_refl.
      * lia.
      * lia.
      * rewrite L1.
        exists w', ([EvOpen (c_str p) fd; EvFstat fd 0] ++ new ++ new2),
               (tail ++ transfers new2).
        repeat split.
        -- congruence.
        -- rewrite L3, H2. reflexivity.
        -- rewrite L4, H3, <- !app_assoc. reflexivity.
        -- rewrite app_assoc, halts_at_failure_app; [exact L5|].
           rewrite forallb_app. cbn [forallb failed negb andb].
           now apply H6.
        -- rewrite !transfers_app, Ht. reflexivity.
    + exists (fst (write_all w0 s (headers p))),
             ([EvOpen (c_str p) fd; EvFstat fd 0] ++ new), tail.
      repeat split.
      * exact H1.
      * exact H2.
      * rewrite H3, <- !app_assoc. reflexivity.
      * rewrite halts_at_failure_app; [exact H5|reflexivity].
      * rewrite transfers_app, Ht. reflexivity.
  - destruct (send_404 fuel w s p Hs) as [w' [pre [H1 [H2 [H3 [H4 [H5 H6]]]]]]].
    exists w', (pre ++ write_message_events s STATUS_404 (write_ret w STATUS_404)),
           [].
    repeat split; try assumption.
    + rewrite halts_at_failure_app; [apply write_message_events_halt|].
      now apply no_transfers_none_failed.
    + rewrite transfers_app, H5, transfers_write_message_events. reflexivity.
Qed.

(** When every call is complete: the answer to a servable path. *)
Lemma send_200_full (fuel : nat) (w : world) (s : Z) (p : list byte)
    (ino : inode) :
  servable w p = Some ino ->
  all_full (pending w) ->
  (0 < fuel)%nat ->
  exists w',
    send_http_response fuel w s p = Some w' /\
    received w' s
    = received w s ++ STATUS_200 ++ CONTENT_TYPE ++ content_type_written p
      ++ END_OF_HEADERS ++ i_data ino.
Proof.
  intros Hs Hfull Hfuel.
  rewrite (send_200_eq fuel w s p ino Hs). cbv zeta.
  set (fd := fresh_fd (fdtable w)).
  set (w0 := {| fs := fs w; fdtable := (fd, ino) :: fdtable w;
                pending := pending w;
                log := (log w ++ [EvOpen (c_str p) fd]) ++ [EvFstat fd 0] |}).
  destruct (write_all_full (headers p) w0 s Hfull (headers_well_formed p))
    as [w1 [E [H1 [H2 [H3 H4]]]]].
  rewrite E. cbn [fst snd WRITE_SUCCESSFUL].
  destruct (sendfile_loop_full fuel w1 s fd ino)
    as [w' [new [L1 [L2 [L3 [L4 L5]]]]]].
  - rewrite H2. cbn [w0 fdtable lookup_fd]. now rewrite Z.eqb_refl.
  - exact H3.
  - exact Hfuel.
  - rewrite L1. exists w'. split; [reflexivity|].
    unfold received. rewrite L4, H4. cbn [w0 log].
    rewrite !bytes_on_app, bytes_on_whole_writes, L5.
    cbn [bytes_on flat_map event_bytes headers List.concat].
    rewrite !app_nil_r, <- !app_assoc. reflexivity.
Qed.

Lemma received_after (w w' : world) (s : Z) (new : list event) :
  log w' = log w ++ new ->
  received w' s = received w s ++ bytes_on s (transfers new).
Proof.
  intros H. unfold received.
  now rewrite H, bytes_on_app, (bytes_on_transfers s new).
Qed.

Lemma servable_none (w : world) (p : list byte) :
  openable w p = None \/
  (exists ino, openable w p = Some ino /\ S_ISREG (i_mode ino) = false) ->
  servable w p = None.
Proof.
  unfold servable. intros [->|[ino [-> ->]]]; reflexivity.
Qed.

(** What one [write_message] does to the log and to the socket. *)
Lemma write_message_effect (w : world) (s : Z) (m : list byte) :
  log (fst (write_message w s m))
  = log w ++ write_message_events s m (write_ret w m) /\
  write_ret w m <= Z.of_nat (List.length (c_str m)) /\
  received (fst (write_message w s m)) s
  = received w s ++ firstn (Z.to_nat (write_ret w m)) (c_str m).
Proof.
  rewrite write_message_eq. cbn [fst log].
  pose proof (write_ret_range w m) as Hr. rewrite strlen_c_str in Hr.
  repeat split; [lia|].
  rewrite (received_after w _ s (write_message_events s m (write_ret w m)))
    by reflexivity.
  rewrite transfers_write_message_events.
  cbn [bytes_on flat_map event_bytes]. now rewrite Z.eqb_refl, app_nil_r.
Qed.

Lemma nul_free_firstn (k : nat) (l : list byte) :
  nul_free l = true -> nul_free (firstn k l) = true.
Proof.
  revert l. induction k as [|k IH]; intros [|c l] H; try reflexivity.
  cbn [firstn nul_free forallb] in *.
  apply andb_true_iff in H. destruct H as [-> H]. now apply IH.
Qed.

(** When the first transfer call of a halting log failed, it is the only one. *)
Lemma halts_first_failed (new : list event) (e : event) (tail : list event) :
  halts_at_failure new = true ->
  transfers new = e :: tail -> failed e = true -> tail = [].
Proof.
  induction new as [|x l IH]; intros Hh Ht He; [discriminate|].
  cbn [transfers filter] in Ht. cbn [halts_at_failure] in Hh.
  destruct (is_transfer x) eqn:Ex.
  - inversion Ht. subst x. rewrite He in Hh.
    now apply no_transfer_no_bytes.
  - destruct (failed x) eqn:Ef.
    + apply failed_is_transfer in Ef. congruence.
    + now apply IH.
Qed.

(** ** The scenarios of the specification, run *)

Example scenario_index_html :
  run [] "/www/index.html"
  = Some (lit "HTTP/1.0 200 OK" ++ CRLF
          ++ lit "Content-Type: text/html" ++ CRLF ++ CRLF
          ++ lit "0123456789").
Proof. reflexivity. Qed.

Example scenario_missing_css :
  run [] "/www/missing.css"
  = Some (lit "HTTP/1.0 404 Not Found" ++ CRLF ++ CRLF).
Proof. reflexivity. Qed.

Example scenario_directory :
  run [] "/www" = Some (lit "HTTP/1.0 404 Not Found" ++ CRLF ++ CRLF).
Proof. reflexivity. Qed.

Example scenario_content_types :
  content_type_written (lit "/photo.jpg") = lit "image/jpeg" /\
  content_type_written (lit "/script") = lit "application/octet-stream" /\
  content_type_written (lit "a.b.html") = lit "text/html" /\
  content_type_written (lit "archive.tar.gz") = lit "application/octet-stream" /\
  content_type_written (lit "/v1.0/readme") = lit "application/octet-stream" /\
  content_type_written (lit "/INDEX.HTML") = lit "application/octet-stream" /\
  content_type_written (lit "/notes.") = lit "application/octet-stream" /\
  content_type_written (lit "/app.js") = lit "text/javascript" /\
  content_type_written (lit "/site.css") = lit "text/css".
Proof. repeat split. Qed.

Example scenario_write_fails_midway :
  run [Full; Full; Fail] "/www/index.html"
  = Some (lit "HTTP/1.0 200 OK" ++ CRLF ++ lit "Content-Type: ").
Proof. reflexivity. Qed.

(** * The claims *)

(** ** C1: the 200 response *)

(** C1, counterexample.  /www/abcd.html is a regular file of 4 bytes and
    no call fails, but the first [write] accepts only 5 of the 17 bytes of
    the status line: [write_message] answers WRITE_SUCCESSFUL all the same,
    the next write follows, and the socket receives a cut status line. *)
Lemma response_garbled_by_partial_write :
  servable (sample_world [Partial 5]) (lit "/www/abcd.html")
  = Some (regular (lit "abcd")) /\
  none_fails [Partial 5] /\
  run [Partial 5] "/www/abcd.html"
  = Some (lit "HTTP/Content-Type: text/html" ++ CRLF ++ CRLF ++ lit "abcd") /\
  run [Partial 5] "/www/abcd.html"
  <> Some (lit "HTTP/1.0 200 OK" ++ CRLF
           ++ lit "Content-Type: " ++ lit "text/html"
           ++ CRLF ++ CRLF ++ lit "abcd").
Proof.
  unfold none_fails.
  repeat split; try reflexivity; try (repeat constructor; discriminate).
Qed.

(** C1, amended.  For an existing regular file, when every [write] and
    [sendfile] call moves all it is asked for, the function returns (one
    round of the loop is enough) and the socket has received the status
    line, "Content-Type: " and the resolved type, the blank line, and then
    the bytes of the file, all of them and nothing else. *)
Theorem response_to_regular_file (fuel : nat) (w : world) (s : Z)
    (p : list byte) (ino : inode) :
  servable w p = Some ino ->
  all_full (pending w) ->
  (0 < fuel)%nat ->
  exists w',
    send_http_response fuel w s p = Some w' /\
    received w' s
    = received w s
      ++ (lit "HTTP/1.0 200 OK" ++ CRLF)
      ++ lit "Content-Type: " ++ resolve_content_type (c_str p)
      ++ (CRLF ++ CRLF)
      ++ i_data ino.
Proof.
  intros Hs Hfull Hfuel.
  destruct (send_200_full fuel w s p ino Hs Hfull Hfuel) as [w' [H1 H2]].
  exists w'. rewrite <- content_type_written_eq.
  split; assumption.
Qed.

Lemma response_to_regular_file_witness :
  servable (sample_world []) (lit "/www/index.html")
  = Some (regular (lit "0123456789")) /\
  exists w',
    send_http_response 1 (sample_world []) 4 (lit "/www/index.html") = Some w' /\
    received w' 4
    = received (sample_world []) 4
      ++ (lit "HTTP/1.0 200 OK" ++ CRLF)
      ++ lit "Content-Type: " ++ lit "text/html"
      ++ (CRLF ++ CRLF)
      ++ lit "0123456789".
Proof.
  split; [reflexivity|].
  apply (response_to_regular_file 1 (sample_world []) 4
           (lit "/www/index.html") (regular (lit "0123456789")));
    [reflexivity | constructor | lia].
Defined.

(** ** C2: the cursor of the transfer loop *)

(** C2, the code at the failing inputs.  [sendfile] advances
    [total_num_bytes_sent] through the pointer it is given, and the loop
    body then adds the count once more.  On the 1-byte file /www/a.bin,
    moved in one complete call, the loop is left with the cursor at 2,
    above the size 1, and not by the [return].  On the 4-byte file
    /www/abcd.html, with a first call that moves 1 byte, the second call
    starts at offset 2: the loop is left with the cursor at 6, no call has
    failed, and the byte at offset 1 was never sent. *)
Theorem transfer_cursor_counts_twice :
  let w1 := fst (open (sample_world []) (lit "/www/a.bin") O_RDONLY) in
  let w4 := fst (open (sample_world [Partial 1]) (lit "/www/abcd.html")
                      O_RDONLY) in
  lookup_fd (fdtable w1) 5 = Some (regular (lit "a")) /\
  option_map (fun r => (snd (fst r), snd r)) (sendfile_loop 1 w1 4 5 1 0)
  = Some (2, false) /\
  lookup_fd (fdtable w4) 5 = Some (regular (lit "abcd")) /\
  option_map (fun r => (transfers (log (fst (fst r))), snd (fst r), snd r))
             (sendfile_loop 2 w4 4 5 4 0)
  = Some ([EvSendfile 4 5 0 4 (lit "a") 1; EvSendfile 4 5 2 4 (lit "cd") 2],
          6, false) /\
  run [Full; Full; Full; Full; Partial 1] "/www/abcd.html"
  = Some (lit "HTTP/1.0 200 OK" ++ CRLF
          ++ lit "Content-Type: " ++ lit "text/html"
          ++ CRLF ++ CRLF ++ lit "acd").
Proof. repeat split. Qed.

(** ** C3: write_message and partial writes *)

(** C3, counterexample.  The [write] accepts 5 of the 17 bytes of the
    message; [write_message] makes no second call and answers
    WRITE_SUCCESSFUL, with 12 bytes never handed to the socket. *)
Lemma write_message_success_on_partial_write :
  let r := write_message (sample_world [Partial 5]) 4 STATUS_200 in
  snd r = WRITE_SUCCESSFUL /\
  transfers (log (fst r)) = [EvWrite 4 STATUS_200 5] /\
  received (fst r) 4 = lit "HTTP/" /\
  received (fst r) 4 <> STATUS_200.
Proof. repeat split. vm_compute. discriminate. Qed.

(** C3, amended.  [write_message] makes exactly one [write] call, of the
    bytes before the first NUL; it answers WRITE_ERROR exactly when that
    call returns a negative count; otherwise the socket has accepted the
    first [n] bytes of the string, where [n] is the count returned, and so
    the whole string only when the one call took it whole. *)
Theorem write_message_single_write (w : world) (s : Z) (m : list byte) :
  let n := write_ret w m in
  let w' := fst (write_message w s m) in
  exists new,
    log w' = log w ++ new /\
    transfers new = [EvWrite s (c_str m) n] /\
    (snd (write_message w s m) = WRITE_ERROR <-> n < 0) /\
    -1 <= n <= Z.of_nat (List.length (c_str m)) /\
    received w' s = received w s ++ firstn (Z.to_nat n) (c_str m) /\
    (n = Z.of_nat (List.length (c_str m)) ->
     received w' s = received w s ++ c_str m).
Proof.
  cbv zeta. destruct (write_message_effect w s m) as [H1 [H2 H3]].
  pose proof (write_ret_range w m) as Hr.
  exists (write_message_events s m (write_ret w m)).
  repeat split.
  - exact H1.
  - apply transfers_write_message_events.
  - rewrite write_message_eq. cbn [snd]. unfold WRITE_ERROR. intros H. lia.
  - rewrite write_message_eq. cbn [snd]. unfold WRITE_ERROR. intros H. lia.
  - lia.
  - exact H2.
  - exact H3.
  - intros Hn. rewrite H3, Hn, Nat2Z.id, firstn_all. reflexivity.
Qed.

(** ** C4: the 404 response *)

(** C4, counterexample.  /www/missing.css does not exist and /www is a
    directory; no call fails, but the [write] of the 26 bytes of the 404
    message accepts 5 of them: the socket receives "HTTP/" and nothing
    more, not the fixed sequence. *)
Lemma not_found_cut_by_partial_write :
  openable (sample_world [Partial 5]) (lit "/www/missing.css") = None /\
  openable (sample_world [Partial 5]) (lit "/www") = Some directory /\
  S_ISREG (i_mode directory) = false /\
  none_fails [Partial 5] /\
  run [Partial 5] "/www/missing.css" = Some (lit "HTTP/") /\
  run [Partial 5] "/www" = Some (lit "HTTP/") /\
  Some (lit "HTTP/")
  <> Some (lit "HTTP/1.0 404 Not Found" ++ CRLF ++ CRLF).
Proof.
  unfold none_fails.
  repeat split; try reflexivity; try (repeat constructor; discriminate).
Qed.

(** C4, amended.  For a path that cannot be opened, and for a path that
    opens on something that is not a regular file, the only transfer call
    made is the one [write] of "HTTP/1.0 404 Not Found\r\n\r\n", after
    which the function returns.  The socket receives the part of these 26
    bytes that the write accepted and nothing else: all of them when the
    write is accepted whole, nothing when it fails. *)
Theorem not_found_response (fuel : nat) (w : world) (s : Z) (p : list byte) :
  openable w p = None \/
  (exists ino, openable w p = Some ino /\ S_ISREG (i_mode ino) = false) ->
  exists w' new,
    send_http_response fuel w s p = Some w' /\
    log w' = log w ++ new /\
    transfers new
    = [EvWrite s (lit "HTTP/1.0 404 Not Found" ++ CRLF ++ CRLF)
               (write_ret w STATUS_404)] /\
    -1 <= write_ret w STATUS_404 <= 26 /\
    received w' s
    = received w s
      ++ firstn (Z.to_nat (write_ret w STATUS_404))
                (lit "HTTP/1.0 404 Not Found" ++ CRLF ++ CRLF) /\
    (write_ret w STATUS_404 = 26 ->
     received w' s
     = received w s ++ lit "HTTP/1.0 404 Not Found" ++ CRLF ++ CRLF) /\
    (write_ret w STATUS_404 < 0 -> received w' s = received w s).
Proof.
  intros H. apply servable_none in H.
  destruct (send_404 fuel w s p H) as [w' [pre [H1 [H2 [H3 [H4 [H5 H6]]]]]]].
  exists w', (pre ++ write_message_events s STATUS_404 (write_ret w STATUS_404)).
  assert (Ht : transfers
                 (pre ++ write_message_events s STATUS_404 (write_ret w STATUS_404))
               = [EvWrite s STATUS_404 (write_ret w STATUS_404)]).
  { now rewrite transfers_app, H5, transfers_write_message_events. }
  assert (Hrec : received w' s
                 = received w s
                   ++ firstn (Z.to_nat (write_ret w STATUS_404)) STATUS_404).
  { rewrite (received_after w w' s _ H6), Ht.
    cbn [bytes_on flat_map event_bytes]. now rewrite Z.eqb_refl, app_nil_r. }
  pose proof (write_ret_range w STATUS_404) as Hr.
  change (strlen STATUS_404) with 26 in Hr. unfold MAX_RW_COUNT in Hr.
  split; [exact H1|]. split; [exact H6|]. split; [exact Ht|].
  split; [lia|]. split; [exact Hrec|]. split.
  - intros Hn. rewrite Hrec, Hn. reflexivity.
  - intros Hn. rewrite Hrec.
    destruct (write_ret w STATUS_404); try lia.
    cbn [Z.to_nat firstn]. apply app_nil_r.
Qed.

Lemma not_found_response_witness :
  (exists ino, openable (sample_world [Partial 5]) (lit "/www") = Some ino /\
               S_ISREG (i_mode ino) = false) /\
  exists w',
    send_http_response 0 (sample_world [Partial 5]) 4 (lit "/www") = Some w' /\
    received w' 4 = lit "HTTP/".
Proof.
  split.
  - exists directory. split; reflexivity.
  - destruct (not_found_response 0 (sample_world [Partial 5]) 4 (lit "/www"))
      as [w' [new [H1 [_ [_ [_ [H5 _]]]]]]].
    + right. exists directory. split; reflexivity.
    + exists w'. split; [exact H1|exact H5].
Defined.

(** ** C5: the content type *)

(** C5.  The type [write_content_type] writes is a function of the path
    string alone, the one the resolver of the specification computes, and
    there is one for every path: with the path cut at its last '.', the
    suffixes ".html", ".jpg", ".js" and ".css", matched exactly, give
    "text/html", "image/jpeg", "text/javascript" and "text/css"; every
    other suffix gives "application/octet-stream", and so does a path
    without '.'. *)
Theorem content_type_resolution (w : world) (s : Z) (p : list byte) :
  write_content_type w s p
  = write_message w s (resolve_content_type (c_str p)) /\
  (forall pre ext,
     c_str p = pre ++ x2e :: ext -> ~ In x2e ext ->
     (ext = lit "html" -> resolve_content_type (c_str p) = lit "text/html") /\
     (ext = lit "jpg" -> resolve_content_type (c_str p) = lit "image/jpeg") /\
     (ext = lit "js" ->
      resolve_content_type (c_str p) = lit "text/javascript") /\
     (ext = lit "css" -> resolve_content_type (c_str p) = lit "text/css") /\
     (ext <> lit "html" -> ext <> lit "jpg" -> ext <> lit "js" ->
      ext <> lit "css" ->
      resolve_content_type (c_str p) = lit "application/octet-stream")) /\
  (~ In x2e (c_str p) ->
   resolve_content_type (c_str p) = lit "application/octet-stream").
Proof.
  split; [|split].
  - now rewrite write_content_type_eq, content_type_written_eq.
  - intros pre ext -> Hext. unfold resolve_content_type.
    rewrite suffix_from_last_app by assumption.
    repeat split.
    + now intros ->.
    + now intros ->.
    + now intros ->.
    + now intros ->.
    + intros H1 H2 H3 H4. unfold mime_of_suffix.
      change (lit ".html") with (x2e :: lit "html").
      change (lit ".jpg") with (x2e :: lit "jpg").
      change (lit ".js") with (x2e :: lit "js").
      change (lit ".css") with (x2e :: lit "css").
      cbn [bytes_eqb]. rewrite byte_eqb_refl. cbn [andb].
      repeat match goal with
             | |- context [bytes_eqb ext ?k] =>
                 let E := fresh "E" in
                 destruct (bytes_eqb ext k) eqn:E;
                   [apply bytes_eqb_eq in E; contradiction|]
             end.
      reflexivity.
  - intros H. unfold resolve_content_type.
    now rewrite suffix_from_last_none.
Qed.

Lemma content_type_resolution_witness :
  c_str (lit "/www/a.b.html") = lit "/www/a.b" ++ x2e :: lit "html" /\
  ~ In x2e (lit "html") /\
  write_content_type (sample_world []) 4 (lit "/www/a.b.html")
  = write_message (sample_world []) 4 (lit "text/html").
Proof.
  assert (Hext : ~ In x2e (lit "html")).
  { cbn. intros [E|[E|[E|[E|[]]]]]; discriminate. }
  split; [reflexivity|]. split; [exact Hext|].
  destruct (content_type_resolution (sample_world []) 4 (lit "/www/a.b.html"))
    as [H [H2 _]].
  destruct (H2 (lit "/www/a.b") (lit "html") eq_refl Hext) as [H3 _].
  rewrite <- (H3 eq_refl). exact H.
Defined.

(** ** C6: failures end the response *)

(** C6.  Every invocation returns, and among the calls it made no [write]
    or [sendfile] follows one that failed: no retry, and no further byte
    on the socket, nor on any other descriptor except standard error,
    where [perror] prints its message after a failed write.  The answer of
    [write_content_type] is WRITE_ERROR exactly when its [write] failed,
    which is how that failure reaches [send_http_response]. *)
Theorem failure_ends_response (fuel : nat) (w : world) (s : Z)
    (p : list byte) :
  (List.length (pending w) < fuel)%nat ->
  (exists w' new,
     send_http_response fuel w s p = Some w' /\
     log w' = log w ++ new /\
     forall before e after,
       new = before ++ e :: after -> failed e = true ->
       transfers after = [] /\
       (forall fd, fd <> 2 -> bytes_on fd after = []) /\
       received w' s = received w s ++ bytes_on s (before ++ [e])) /\
  (snd (write_content_type w s p) = WRITE_ERROR
   <-> write_ret w (content_type_written p) < 0).
Proof.
  intros Hfuel. split.
  - destruct (send_http_response_shape fuel w s p Hfuel)
      as [w' [new [tail [H1 [H2 [H3 [H4 [H5 H6]]]]]]]].
    exists w', new. repeat split; try assumption.
    + eapply halts_at_failure_spec; eauto.
    + intros fd _. rewrite bytes_on_transfers.
      erewrite halts_at_failure_spec; eauto.
    + unfold received. rewrite H4, H.
      replace (before ++ e :: after) with ((before ++ [e]) ++ after)
        by (now rewrite <- app_assoc).
      rewrite !bytes_on_app, (bytes_on_transfers s after).
      erewrite halts_at_failure_spec; eauto.
      cbn [bytes_on flat_map]. now rewrite app_nil_r.
  - rewrite write_content_type_eq, write_message_eq. cbn [snd].
    unfold WRITE_ERROR. split; intros H; lia.
Qed.

Lemma failure_ends_response_witness :
  (List.length (pending (sample_world [Full; Fail])) < 3)%nat /\
  exists w' new,
    send_http_response 3 (sample_world [Full; Fail]) 4 (lit "/www/index.html")
    = Some w' /\
    log w' = log (sample_world [Full; Fail]) ++ new /\
    forall before e after,
      new = before ++ e :: after -> failed e = true ->
      transfers after = [] /\
      (forall fd, fd <> 2 -> bytes_on fd after = []) /\
      received w' 4
      = received (sample_world [Full; Fail]) 4 ++ bytes_on 4 (before ++ [e]).
Proof.
  split; [cbn; lia|].
  apply (failure_ends_response 3 (sample_world [Full; Fail]) 4
           (lit "/www/index.html")).
  cbn. lia.
Defined.

(** ** C7: the descriptor of the file *)

(** C7, counterexample.  After serving /www/index.html the descriptor the
    function opened, 5, is still in the table. *)
Lemma descriptor_left_open :
  open_fds (sample_world []) = [0; 1; 2; 3; 4] /\
  option_map open_fds
    (send_http_response 1 (sample_world []) 4 (lit "/www/index.html"))
  = Some [5; 0; 1; 2; 3; 4].
Proof. split; reflexivity. Qed.

(** C7, amended.  [send_http_response] never closes the descriptor it
    opens.  Whenever [open] succeeds, on every way out (the file sent,
    the 404 after the regular-file check, a failed write or transfer), the
    descriptor table at return is the table at entry with the new
    descriptor added; the two tables are equal only when [open] fails. *)
Theorem descriptor_never_released (fuel : nat) (w : world) (s : Z)
    (p : list byte) :
  (List.length (pending w) < fuel)%nat ->
  exists w',
    send_http_response fuel w s p = Some w' /\
    match openable w p with
    | Some ino =>
        fdtable w' = (fresh_fd (fdtable w), ino) :: fdtable w /\
        ~ In (fresh_fd (fdtable w)) (open_fds w) /\
        In (fresh_fd (fdtable w)) (open_fds w')
    | None => fdtable w' = fdtable w
    end.
Proof.
  intros Hfuel.
  destruct (send_http_response_shape fuel w s p Hfuel)
    as [w' [new [tail [H1 [H2 [H3 [H4 [H5 H6]]]]]]]].
  exists w'. split; [exact H1|].
  unfold newly_opened in H3. destruct (openable w p) as [ino|].
  - repeat split.
    + exact H3.
    + apply fresh_fd_not_in.
    + unfold open_fds. rewrite H3. left. reflexivity.
  - exact H3.
Qed.

Lemma descriptor_never_released_witness :
  (List.length (pending (sample_world [Full; Fail])) < 3)%nat /\
  exists w',
    send_http_response 3 (sample_world [Full; Fail]) 4 (lit "/www/index.html")
    = Some w' /\
    fdtable w' = (5, regular (lit "0123456789")) :: fdtable (sample_world [Full; Fail]).
Proof.
  split; [cbn; lia|].
  destruct (descriptor_never_released 3 (sample_world [Full; Fail]) 4
              (lit "/www/index.html")) as [w' [H1 H2]].
  - cbn. lia.
  - exists w'. split; [exact H1|]. exact (proj1 H2).
Defined.

(** ** C8: the same file twice *)

(** C8, counterexample.  The same path and the same file, two sockets on
    which no call fails: one accepts every write whole, the other accepts
    5 bytes of the first.  The two outputs differ. *)
Lemma same_file_different_output :
  none_fails [] /\ none_fails [Partial 5] /\
  run [] "/www/abcd.html"
  = Some (STATUS_200 ++ CONTENT_TYPE ++ lit "text/html" ++ END_OF_HEADERS
          ++ lit "abcd") /\
  run [Partial 5] "/www/abcd.html"
  = Some (lit "HTTP/Content-Type: text/html" ++ CRLF ++ CRLF ++ lit "abcd") /\
  run [] "/www/abcd.html" <> run [Partial 5] "/www/abcd.html".
Proof.
  unfold none_fails.
  repeat split; try reflexivity; try (repeat constructor; discriminate).
Qed.

(** C8, amended.  Two invocations on the same path, leading to the same
    regular file, in two worlds (two sockets, two descriptor tables, with
    whatever was sent before) where every [write] and [sendfile] call
    moves all it is asked for, put the same bytes on their sockets. *)
Theorem same_file_same_output (fuel1 fuel2 : nat) (w1 w2 : world)
    (s1 s2 : Z) (p : list byte) (ino : inode) :
  servable w1 p = Some ino ->
  servable w2 p = Some ino ->
  all_full (pending w1) ->
  all_full (pending w2) ->
  (0 < fuel1)%nat -> (0 < fuel2)%nat ->
  exists w1' w2' out,
    send_http_response fuel1 w1 s1 p = Some w1' /\
    send_http_response fuel2 w2 s2 p = Some w2' /\
    received w1' s1 = received w1 s1 ++ out /\
    received w2' s2 = received w2 s2 ++ out.
Proof.
  intros Hs1 Hs2 Hf1 Hf2 Hfuel1 Hfuel2.
  destruct (send_200_full fuel1 w1 s1 p ino Hs1 Hf1 Hfuel1) as [w1' [A1 A2]].
  destruct (send_200_full fuel2 w2 s2 p ino Hs2 Hf2 Hfuel2) as [w2' [B1 B2]].
  exists w1', w2',
    (STATUS_200 ++ CONTENT_TYPE ++ content_type_written p
     ++ END_OF_HEADERS ++ i_data ino).
  repeat split; assumption.
Qed.

(** A second process: other descriptors, and a socket, 7, that has already
    carried a response. *)
Lemma same_file_same_output_witness :
  exists w1' w2' out,
    send_http_response 1 (sample_world []) 4 (lit "/www/abcd.html") = Some w1' /\
    send_http_response 1
      {| fs := sample_fs; fdtable := [(7, directory)]; pending := [Full];
         log := [EvWrite 7 STATUS_404 26] |} 7 (lit "/www/abcd.html")
    = Some w2' /\
    received w1' 4 = received (sample_world []) 4 ++ out /\
    received w2' 7 = STATUS_404 ++ out.
Proof.
  apply (same_file_same_output 1 1 (sample_world [])
           {| fs := sample_fs; fdtable := [(7, directory)]; pending := [Full];
              log := [EvWrite 7 STATUS_404 26] |}
           4 7 (lit "/www/abcd.html") (regular (lit "abcd")));
    try reflexivity; try lia; repeat constructor.
Defined.

(** ** C9: write_message and NUL *)

(** C9.  The length [write_message] passes to [write] is the distance to
    the first NUL.  With a NUL after [pre], the call is the one made for
    [pre] alone: the bytes handed over are [pre], what the socket receives
    is a prefix of [pre], without NUL, and nothing behind the NUL is ever
    written.  For the empty string the count is 0, nothing is received,
    and the answer is WRITE_SUCCESSFUL unless the call itself fails. *)
Theorem write_message_stops_at_nul (w : world) (s : Z) (pre post : list byte) :
  nul_free pre = true ->
  let m := pre ++ NUL :: post in
  let w' := fst (write_message w s m) in
  strlen m = Z.of_nat (List.length pre) /\
  write_message w s m = write_message w s pre /\
  transfers (skipn (List.length (log w)) (log w'))
  = [EvWrite s pre (write_ret w m)] /\
  write_ret w m <= Z.of_nat (List.length pre) /\
  received w' s = received w s ++ firstn (Z.to_nat (write_ret w m)) pre /\
  nul_free (firstn (Z.to_nat (write_ret w m)) pre) = true /\
  (pre = [] -> hd_error (pending w) <> Some Fail ->
   write_ret w m = 0 /\
   snd (write_message w s m) = WRITE_SUCCESSFUL /\
   received w' s = received w s).
Proof.
  intros Hpre. cbv zeta.
  assert (Hc : c_str (pre ++ NUL :: post) = pre) by now apply c_str_app_nul.
  assert (Hl : strlen (pre ++ NUL :: post) = Z.of_nat (List.length pre))
    by now rewrite strlen_c_str, Hc.
  assert (Hw : write_ret w (pre ++ NUL :: post) = write_ret w pre).
  { unfold write_ret. now rewrite Hl, strlen_nul_free. }
  destruct (write_message_effect w s (pre ++ NUL :: post)) as [H1 [H2 H3]].
  rewrite Hc in H2, H3.
  assert (H0 : pre = [] -> hd_error (pending w) <> Some Fail ->
               write_ret w (pre ++ NUL :: post) = 0).
  { intros -> Hnf. unfold write_ret. cbn [app strlen].
    rewrite byte_eqb_refl.
    destruct (pending w) as [|[|k|] rest]; cbn [hd_error moved] in *;
      unfold MAX_RW_COUNT; try lia. congruence. }
  repeat split.
  - exact Hl.
  - rewrite !write_message_eq, Hw. unfold write_message_events.
    now rewrite Hc, c_str_nul_free.
  - rewrite H1, skipn_app, skipn_all, Nat.sub_diag. cbn [skipn app].
    now rewrite transfers_write_message_events, Hc.
  - exact H2.
  - exact H3.
  - now apply nul_free_firstn.
  - now apply H0.
  - rewrite write_message_eq. cbn [snd]. rewrite H0 by assumption.
    reflexivity.
  - rewrite H3, H0 by assumption. cbn [Z.to_nat firstn]. apply app_nil_r.
Qed.

Lemma write_message_stops_at_nul_witness :
  nul_free (lit "ab") = true /\
  write_message (sample_world []) 4 (lit "ab" ++ NUL :: lit "cd")
  = write_message (sample_world []) 4 (lit "ab") /\
  received (fst (write_message (sample_world []) 4 (lit "ab" ++ NUL :: lit "cd"))) 4
  = lit "ab".
Proof.
  split; [reflexivity|].
  destruct (write_message_stops_at_nul (sample_world []) 4 (lit "ab") (lit "cd")
              eq_refl) as [_ [H [_ [_ [H' _]]]]].
  split; [exact H|exact H'].
Defined.

(** ** C10: how a response starts *)

(** C10, counterexample.  No call fails, but the first [write] accepts 5
    of the 17 bytes of the status line and the next write follows: the
    first 17 bytes the socket receives are "HTTP/Content-Type", its first
    26 are "HTTP/Content-Type: text/ht", and so what it receives starts
    with neither status line. *)
Lemma status_line_cut_by_partial_write :
  none_fails [Partial 5] /\
  option_map (firstn 17) (run [Partial 5] "/www/abcd.html")
  = Some (lit "HTTP/Content-Type") /\
  lit "HTTP/Content-Type" <> lit "HTTP/1.0 200 OK" ++ CRLF /\
  option_map (firstn 26) (run [Partial 5] "/www/abcd.html")
  = Some (lit "HTTP/Content-Type: text/ht") /\
  lit "HTTP/Content-Type: text/ht"
  <> lit "HTTP/1.0 404 Not Found" ++ CRLF ++ CRLF.
Proof.
  unfold none_fails.
  repeat split; try reflexivity; try (repeat constructor; discriminate).
Qed.

(** C10, amended.  Every invocation returns, and the first transfer call it
    makes is a [write] of exactly "HTTP/1.0 200 OK\r\n" or exactly
    "HTTP/1.0 404 Not Found\r\n\r\n", the former exactly when the path
    leads to a regular file that can be opened.  What the socket receives
    in all starts with the part of that line this first call accepted:
    nothing at all when the call failed, the whole line when it was taken
    whole, and on a short write a prefix of the line, followed by what the
    later calls put on the socket. *)
Theorem response_starts_with_status_line (fuel : nat) (w : world) (s : Z)
    (p : list byte) :
  (List.length (pending w) < fuel)%nat ->
  exists w' new msg tail,
    send_http_response fuel w s p = Some w' /\
    log w' = log w ++ new /\
    (msg = lit "HTTP/1.0 200 OK" ++ CRLF /\ servable w p <> None \/
     msg = lit "HTTP/1.0 404 Not Found" ++ CRLF ++ CRLF /\ servable w p = None) /\
    transfers new = EvWrite s msg (write_ret w msg) :: tail /\
    received w' s
    = received w s ++ firstn (Z.to_nat (write_ret w msg)) msg
      ++ bytes_on s tail /\
    (write_ret w msg < 0 -> received w' s = received w s) /\
    (write_ret w msg = Z.of_nat (List.length msg) ->
     received w' s = received w s ++ msg ++ bytes_on s tail).
Proof.
  intros Hfuel.
  destruct (send_http_response_shape fuel w s p Hfuel)
    as [w' [new [tail [H1 [H2 [H3 [H4 [H5 H6]]]]]]]].
  exists w', new, (status_line w p), tail.
  assert (Hrec : received w' s
                 = received w s
                   ++ firstn (Z.to_nat (write_ret w (status_line w p)))
                        (status_line w p)
                   ++ bytes_on s tail).
  { rewrite (received_after w w' s new H4), H6.
    cbn [bytes_on flat_map event_bytes]. now rewrite Z.eqb_refl. }
  repeat split.
  - exact H1.
  - exact H4.
  - unfold status_line. destruct (servable w p); [left|right];
      (split; [reflexivity|congruence]).
  - exact H6.
  - exact Hrec.
  - intros Hneg. rewrite Hrec.
    rewrite (halts_first_failed new _ tail H5 H6)
      by (cbn [failed]; lia).
    destruct (write_ret w (status_line w p)); try lia.
    cbn [Z.to_nat firstn bytes_on flat_map]. now rewrite app_nil_r.
  - intros Hn. rewrite Hrec, Hn, Nat2Z.id, firstn_all. reflexivity.
Qed.

Lemma response_starts_with_status_line_witness :
  (List.length (pending (sample_world [Partial 5])) < 2)%nat /\
  exists w' new msg tail,
    send_http_response 2 (sample_world [Partial 5]) 4 (lit "/www/secret.css")
    = Some w' /\
    log w' = log (sample_world [Partial 5]) ++ new /\
    transfers new = EvWrite 4 msg (write_ret (sample_world [Partial 5]) msg) :: tail.
Proof.
  split; [cbn; lia|].
  destruct (response_starts_with_status_line 2 (sample_world [Partial 5]) 4
              (lit "/www/secret.css"))
    as [w' [new [msg [tail [H1 [H2 [_ [H3 _]]]]]]]].
  - cbn. lia.
  - exists w', new, msg, tail. repeat split; assumption.
Defined.


(** * Further properties of the response *)

(** ** Subsequences *)

Lemma subsequence_refl (l : list byte) : subsequence l l.
Proof. induction l; constructor; assumption. Qed.

Lemma subsequence_skipn (k : nat) :
  forall a l, subsequence a (skipn k l) -> subsequence a l.
Proof.
  induction k as [|k IH]; intros a [|x l] H; cbn [skipn] in H;
    try assumption.
  apply subsequence_skip. now apply IH.
Qed.

Lemma subsequence_app_head (a b c : list byte) :
  subsequence b c -> subsequence (a ++ b) (a ++ c).
Proof.
  intros H. induction a; cbn [app]; [assumption|].
  now apply subsequence_take.
Qed.

Lemma subsequence_firstn (k : nat) (l : list byte) :
  subsequence (firstn k l) l.
Proof.
  revert l. induction k as [|k IH]; intros [|x l]; cbn [firstn];
    try apply subsequence_nil.
  apply subsequence_take, IH.
Qed.

Lemma subsequence_length (a b : list byte) :
  subsequence a b -> (List.length a <= List.length b)%nat.
Proof. induction 1; cbn [List.length]; lia. Qed.

(** ** The loop, call by call *)

(** One goal for each part of a conjunction, and no other splitting. *)
Ltac conjuncts := repeat match goal with |- _ /\ _ => split end.

Lemma length_moved_data (rest : list byte) (ret : Z) :
  -1 <= ret <= Z.of_nat (List.length rest) ->
  Z.of_nat (List.length (firstn (Z.to_nat ret) rest)) = Z.max 0 ret.
Proof. intros H. rewrite length_firstn. lia. Qed.

Lemma moved_negative (o : option outcome) (most : Z) :
  0 <= most -> moved o most < 0 -> o = Some Fail.
Proof. destruct o as [[|k|]|]; cbn [moved]; intros; try lia. reflexivity. Qed.

Lemma none_fails_tl (l : list outcome) : none_fails l -> none_fails (tl l).
Proof. intros H. destruct l; [exact H|]. now inversion H. Qed.

Lemma none_fails_hd (l : list outcome) :
  none_fails l -> hd_error l <> Some Fail.
Proof.
  intros H. destruct l as [|o l]; [discriminate|].
  inversion H. subst. cbn. congruence.
Qed.

(** With the descriptor open on the file, every round of the loop is one
    [sendfile_call]; the cursor ends at its start plus twice the bytes
    moved; a loop left by its condition has the cursor at the size or
    above; without a failing outcome it is left that way; and the bytes
    moved are bytes of the file from the starting offset on, in order. *)
Lemma sendfile_loop_trace (fuel : nat) :
  forall (w : world) (s fd total : Z) (ino : inode),
    lookup_fd (fdtable w) fd = Some ino ->
    0 <= total ->
    (List.length (pending w) < fuel)%nat ->
    exists w' total' left new,
      sendfile_loop fuel w s fd (Z.of_nat (List.length (i_data ino))) total
      = Some (w', total', left) /\
      log w' = log w ++ new /\
      (List.length (pending w') <= List.length (pending w))%nat /\
      Forall (sendfile_call s fd ino) new /\
      total' = total + 2 * Z.of_nat (List.length (bytes_on s new)) /\
      (left = false -> Z.of_nat (List.length (i_data ino)) <= total') /\
      (none_fails (pending w) -> left = false) /\
      subsequence (bytes_on s new) (skipn (Z.to_nat total) (i_data ino)).
Proof.
  induction fuel as [|fuel IH]; intros w s fd total ino Hfd Htot Hfuel; [lia|].
  set (size := Z.of_nat (List.length (i_data ino))).
  destruct (total <? size) eqn:Elt.
  2:{ exists w, total, false, []. rewrite sendfile_loop_done by lia.
      rewrite app_nil_r. cbn [bytes_on flat_map List.length].
      conjuncts; try reflexivity; try constructor; lia. }
  cbn [sendfile_loop]. rewrite Elt. unfold sendfile. rewrite Hfd.
  fold size. rewrite length_rest by (fold size; lia). fold size.
  replace (Z.max 0 (Z.min size (size - total))) with (size - total) by lia.
  set (ret := moved (hd_error (pending w)) (size - total)).
  assert (Hret : -1 <= ret <= size - total) by (apply moved_range; lia).
  set (rest := skipn (Z.to_nat total) (i_data ino)).
  assert (Hrest : Z.of_nat (List.length rest) = size - total).
  { unfold rest. rewrite length_rest; fold size; lia. }
  set (data := firstn (Z.to_nat ret) rest).
  assert (Hdata : Z.of_nat (List.length data) = Z.max 0 ret).
  { unfold data. apply length_moved_data. lia. }
  set (ev := EvSendfile s fd total size data ret).
  assert (Hev : sendfile_call s fd ino ev).
  { cbn [sendfile_call ev]. fold size. conjuncts; try reflexivity; lia. }
  assert (Hbytes : bytes_on s [ev] = data).
  { cbn [bytes_on flat_map event_bytes ev]. now rewrite Z.eqb_refl, app_nil_r. }
  assert (Hsub : subsequence data rest) by apply subsequence_firstn.
  destruct (ret <? 0) eqn:Eneg.
  - replace (ret >=? 0) with false by (symmetry; lia).
    exists (record (consume w) ev), total, true, [ev].
    rewrite Hbytes.
    conjuncts.
    + reflexivity.
    + reflexivity.
    + cbn. destruct (pending w); cbn; lia.
    + constructor; [exact Hev|constructor].
    + lia.
    + discriminate.
    + intros Hnf. apply none_fails_hd in Hnf.
      exfalso. apply Hnf. apply (moved_negative _ (size - total)); [lia|].
      fold ret. lia.
    + exact Hsub.
  - replace (ret >=? 0) with true by (symmetry; lia).
    destruct (pending w) as [|o tail] eqn:Ep.
    + assert (ret = size - total) by reflexivity.
      rewrite sendfile_loop_done by lia.
      exists (record (consume w) ev), (total + ret + ret), false, [ev].
      rewrite Hbytes.
      conjuncts.
      * reflexivity.
      * reflexivity.
      * cbn. rewrite Ep. cbn. lia.
      * constructor; [exact Hev|constructor].
      * lia.
      * fold size. lia.
      * reflexivity.
      * exact Hsub.
    + destruct (IH (record (consume w) ev) s fd (total + ret + ret) ino)
        as [w' [total' [left [new [H1 [H2 [H3 [H4 [H5 [H6 [H7 H8]]]]]]]]]]].
      * exact Hfd.
      * lia.
      * cbn [record consume pending]. rewrite Ep. cbn in *. lia.
      * exists w', total', left, (ev :: new).
        cbn [record consume fs fdtable log pending] in *.
        change (ev :: new) with ([ev] ++ new).
        rewrite bytes_on_app, Hbytes, length_app.
        conjuncts.
        -- exact H1.
        -- rewrite H2, <- app_assoc. reflexivity.
        -- rewrite Ep in H3. cbn in *. lia.
        -- constructor; assumption.
        -- lia.
        -- exact H6.
        -- intros Hnf. apply H7. rewrite Ep.
           now apply (none_fails_tl (o :: tail)).
        -- replace (skipn (Z.to_nat (total + ret + ret)) (i_data ino))
             with (skipn (Z.to_nat ret) (skipn (Z.to_nat ret) rest)) in H8
             by (unfold rest; rewrite !skipn_skipn; f_equal; lia).
           apply subsequence_skipn in H8.
           assert (E : rest = data ++ skipn (Z.to_nat ret) rest)
             by (unfold data; now rewrite firstn_skipn).
           rewrite E. now apply subsequence_app_head.
Qed.

(** ** The header writes, call by call *)

Lemma write_call_weaken (s : Z) (a b : list (list byte)) (e : event) :
  incl a b -> write_call s a e -> write_call s b e.
Proof.
  intros Hi. destruct e; cbn [write_call]; try tauto.
  intros [H1 H2]. split; [exact H1|]. now apply Hi.
Qed.

Lemma write_call_not_sendfile (s : Z) (msgs : list (list byte))
    (l : list event) :
  Forall (write_call s msgs) l -> filter is_sendfile l = [].
Proof.
  induction 1 as [|e l He _ IH]; [reflexivity|].
  destruct e; cbn [filter is_sendfile]; try assumption.
  destruct He.
Qed.

(** Every call of a run of [write_message]s is a write, on the socket, of
    one of the messages (or the [perror] after a failed one). *)
Lemma write_all_trace (msgs : list (list byte)) :
  forall (w : world) (s : Z),
  exists new,
    log (fst (write_all w s msgs)) = log w ++ new /\
    Forall (write_call s (map c_str msgs)) new.
Proof.
  induction msgs as [|m msgs IH]; intros w s.
  - exists []. cbn. rewrite app_nil_r. split; constructor.
  - cbn [write_all]. rewrite write_message_eq, eqb_write_error.
    assert (Hm : Forall (write_call s (map c_str (m :: msgs)))
                   (write_message_events s m (write_ret w m))).
    { unfold write_message_events.
      constructor; [cbn; tauto|].
      destruct (write_ret w m <? 0); repeat constructor. }
    destruct (0 <=? write_ret w m); cbn [negb].
    + match goal with |- context [write_all ?w1 s msgs] =>
        destruct (IH w1 s) as [new [H1 H2]]
      end.
      cbn [log] in H1.
      exists (write_message_events s m (write_ret w m) ++ new). split.
      * rewrite H1, <- app_assoc. reflexivity.
      * apply Forall_app. split; [exact Hm|].
        eapply Forall_impl; [|exact H2].
        intros e. apply write_call_weaken. intros x Hx. now right.
    + exists (write_message_events s m (write_ret w m)). split;
        [reflexivity|exact Hm].
Qed.

Lemma write_ret_full (w : world) (m : list byte) (tail : list outcome) :
  pending w = Full :: tail ->
  nul_free m = true -> Z.of_nat (List.length m) <= MAX_RW_COUNT ->
  write_ret w m = Z.of_nat (List.length m).
Proof.
  intros Hp Hn Hl. unfold write_ret. rewrite Hp. cbn [hd_error moved].
  rewrite strlen_nul_free by assumption. lia.
Qed.

(** Complete writes for all the messages: each is written whole, and the
    script is used up to there. *)
Lemma write_all_full_prefix (msgs : list (list byte)) :
  forall (w : world) (s : Z) (rest : list outcome),
    pending w = repeat Full (List.length msgs) ++ rest ->
    Forall (fun m => nul_free m = true /\
                     Z.of_nat (List.length m) <= MAX_RW_COUNT) msgs ->
    exists w1,
      write_all w s msgs = (w1, WRITE_SUCCESSFUL) /\
      fs w1 = fs w /\ fdtable w1 = fdtable w /\
      pending w1 = rest /\
      log w1 = log w ++ map (whole_write s) msgs.
Proof.
  induction msgs as [|m msgs IH]; intros w s rest Hp Hm.
  - exists w. cbn in *. rewrite app_nil_r. conjuncts; try reflexivity.
    exact Hp.
  - inversion Hm as [|? ? [Hnul Hlen] Hrest]. subst.
    cbn [List.length repeat app] in Hp.
    cbn [write_all]. rewrite write_message_eq, eqb_write_error.
    rewrite (write_ret_full w m _ Hp Hnul Hlen).
    rewrite write_message_events_ok, c_str_nul_free by (assumption || lia).
    replace (0 <=? Z.of_nat (List.length m)) with true by (symmetry; lia).
    cbn [negb].
    match goal with |- context [write_all ?w1 s msgs] =>
      destruct (IH w1 s rest) as [w2 [H1 [H2 [H3 [H4 H5]]]]];
        [cbn [pending]; now rewrite Hp | assumption |]
    end.
    exists w2. cbn [fs fdtable log pending] in *.
    conjuncts; try assumption.
    rewrite H5, <- app_assoc. reflexivity.
Qed.

(** Complete writes for the first messages and a failed one for the next:
    the run ends there, with the rest of the script untouched. *)
Lemma write_all_fail_at (pre : list (list byte)) :
  forall (w : world) (s : Z) (m : list byte) (post : list (list byte))
         (rest : list outcome),
    pending w = repeat Full (List.length pre) ++ Fail :: rest ->
    Forall (fun m => nul_free m = true /\
                     Z.of_nat (List.length m) <= MAX_RW_COUNT) pre ->
    exists w1,
      write_all w s (pre ++ m :: post) = (w1, WRITE_ERROR) /\
      fs w1 = fs w /\ fdtable w1 = fdtable w /\
      pending w1 = rest /\
      log w1 = log w ++ map (whole_write s) pre
               ++ [EvWrite s (c_str m) (-1); EvPerror (lit "write")].
Proof.
  induction pre as [|x pre IH]; intros w s m post rest Hp Hm.
  - cbn [List.length repeat app] in Hp.
    cbn [app write_all]. rewrite write_message_eq, eqb_write_error.
    assert (Hr : write_ret w m = -1) by (unfold write_ret; now rewrite Hp).
    rewrite Hr. cbn [Z.leb Z.compare negb].
    eexists. conjuncts; try reflexivity. cbn. now rewrite Hp.
  - inversion Hm as [|? ? [Hnul Hlen] Hrest]. subst.
    cbn [List.length repeat app] in Hp.
    cbn [app write_all]. rewrite write_message_eq, eqb_write_error.
    rewrite (write_ret_full w x _ Hp Hnul Hlen).
    rewrite write_message_events_ok, c_str_nul_free by (assumption || lia).
    replace (0 <=? Z.of_nat (List.length x)) with true by (symmetry; lia).
    cbn [negb].
    match goal with |- context [write_all ?w1 s (pre ++ m :: post)] =>
      destruct (IH w1 s m post rest) as [w2 [H1 [H2 [H3 [H4 H5]]]]];
        [cbn [pending]; now rewrite Hp | assumption |]
    end.
    exists w2. cbn [fs fdtable log pending] in *.
    conjuncts; try assumption.
    rewrite H5, <- app_assoc. reflexivity.
Qed.

(** Without a failing outcome every message gets its one write, none of
    them fails, and the run answers WRITE_SUCCESSFUL. *)
Lemma write_all_none_fails (msgs : list (list byte)) :
  forall (w : world) (s : Z),
    none_fails (pending w) ->
    exists w1 ns,
      write_all w s msgs = (w1, WRITE_SUCCESSFUL) /\
      fs w1 = fs w /\ fdtable w1 = fdtable w /\
      none_fails (pending w1) /\
      (List.length (pending w1) <= List.length (pending w))%nat /\
      List.length ns = List.length msgs /\
      Forall (fun n => 0 <= n) ns /\
      log w1 = log w
               ++ map (fun mn => EvWrite s (c_str (fst mn)) (snd mn))
                      (combine msgs ns).
Proof.
  induction msgs as [|m msgs IH]; intros w s Hnf.
  - exists w, []. cbn. rewrite app_nil_r. conjuncts; try reflexivity.
    + exact Hnf.
    + constructor.
  - cbn [write_all]. rewrite write_message_eq, eqb_write_error.
    assert (Hr : 0 <= write_ret w m).
    { pose proof (write_ret_range w m) as R.
      destruct (write_ret w m <? 0) eqn:E; [|lia].
      exfalso. apply (none_fails_hd _ Hnf).
      apply (moved_negative _ (Z.min (strlen m) MAX_RW_COUNT)).
      - pose proof (strlen_nonneg m). unfold MAX_RW_COUNT. lia.
      - fold (write_ret w m). lia. }
    rewrite write_message_events_ok by assumption.
    replace (0 <=? write_ret w m) with true by (symmetry; lia).
    cbn [negb].
    match goal with |- context [write_all ?w1 s msgs] =>
      destruct (IH w1 s) as [w2 [ns [H1 [H2 [H3 [H4 [H5 [H6 [H7 H8]]]]]]]]];
        [cbn [pending]; now apply none_fails_tl|]
    end.
    exists w2, (write_ret w m :: ns). cbn [fs fdtable log pending] in *.
    conjuncts; try assumption.
    + etransitivity; [exact H5|]. destruct (pending w); cbn; lia.
    + cbn. now rewrite H6.
    + constructor; assumption.
    + rewrite H8, <- app_assoc. reflexivity.
Qed.

(** ** An invocation, call by call *)

Lemma sendfile_calls_filter (s fd : Z) (ino : inode) (l : list event) :
  Forall (sendfile_call s fd ino) l -> filter is_sendfile l = l.
Proof.
  induction 1 as [|e l He _ IH]; [reflexivity|].
  destruct e; cbn [sendfile_call] in He; try contradiction.
  cbn [filter is_sendfile]. now rewrite IH.
Qed.

Lemma headers_fragments (p : list byte) :
  incl (map c_str (headers p)) fragments.
Proof.
  unfold headers, fragments. cbn [map].
  intros x [<-|[<-|[<-|[<-|[]]]]].
  - cbn. tauto.
  - cbn. tauto.
  - rewrite c_str_nul_free.
    + destruct (content_type_written_cases p)
        as [<-|[<-|[<-|[<-|[<-|[]]]]]]; cbn; tauto.
    + destruct (content_type_written_cases p)
        as [<-|[<-|[<-|[<-|[<-|[]]]]]]; reflexivity.
  - cbn. tauto.
Qed.

(** The 404 answer with its calls in full. *)
Lemma send_404_log (fuel : nat) (w : world) (s : Z) (p : list byte) :
  servable w p = None ->
  exists w',
    send_http_response fuel w s p = Some w' /\
    pending w' = tl (pending w) /\
    log w' = log w
             ++ match openable w p with
                | Some _ => [EvOpen (c_str p) (fresh_fd (fdtable w));
                             EvFstat (fresh_fd (fdtable w)) 0]
                | None => [EvOpen (c_str p) (-1)]
                end
             ++ write_message_events s STATUS_404 (write_ret w STATUS_404).
Proof.
  intros Hs. unfold servable in Hs.
  unfold send_http_response. rewrite open_eq.
  destruct (openable w p) as [ino|].
  - pose proof (fresh_fd_nonneg (fdtable w)) as Hfd.
    replace (fresh_fd (fdtable w) <? 0) with false by (symmetry; lia).
    unfold fstat. cbn [fdtable lookup_fd]. rewrite Z.eqb_refl.
    cbn [st_mode]. destruct (S_ISREG (i_mode ino)); [discriminate|].
    rewrite write_message_eq. cbn [record fs fdtable pending log].
    eexists. split; [now destruct (Bool.eqb _ _)|].
    cbn [pending log]. split; [reflexivity|].
    unfold write_ret. cbn [pending]. rewrite <- !app_assoc. reflexivity.
  - change (-1 <? 0) with true. cbv iota.
    rewrite write_message_eq. cbn [record fs fdtable pending log].
    eexists. split; [now destruct (Bool.eqb _ _)|].
    cbn [pending log]. split; [reflexivity|].
    unfold write_ret. cbn [pending]. rewrite <- !app_assoc. reflexivity.
Qed.

Lemma write_message_events_calls (w : world) (s : Z) (p m : list byte)
    (n : Z) :
  In (c_str m) fragments ->
  Forall (response_call w s p) (write_message_events s m n).
Proof.
  intros H. unfold write_message_events.
  constructor; [cbn; tauto|].
  destruct (n <? 0); repeat constructor.
Qed.

(** Every invocation, call by call: it returns; it uses up script from the
    front only; each call it makes is a [response_call]; and the bytes its
    [sendfile] calls move are bytes of the file, in order. *)
Lemma send_http_response_trace (fuel : nat) (w : world) (s : Z)
    (p : list byte) :
  (List.length (pending w) < fuel)%nat ->
  exists w' new,
    send_http_response fuel w s p = Some w' /\
    log w' = log w ++ new /\
    (List.length (pending w') <= List.length (pending w))%nat /\
    Forall (response_call w s p) new /\
    (forall ino, servable w p = Some ino ->
                 subsequence (body_sent s new) (i_data ino)).
Proof.
  intros Hfuel.
  destruct (servable w p) as [ino|] eqn:Hs.
  - rewrite (send_200_eq fuel w s p ino Hs). cbv zeta.
    set (fd := fresh_fd (fdtable w)).
    set (w0 := {| fs := fs w; fdtable := (fd, ino) :: fdtable w;
                  pending := pending w;
                  log := (log w ++ [EvOpen (c_str p) fd]) ++ [EvFstat fd 0] |}).
    destruct (write_all_shape (headers p) w0 s)
      as [new [H1 [H2 [H3 [H4 _]]]]].
    destruct (write_all_trace (headers p) w0 s) as [new' [T1 T2]].
    rewrite H3 in T1. apply app_inv_head in T1. subst new'.
    cbn [w0 fs fdtable log pending] in H1, H2, H3, H4.
    assert (Hhdr : Forall (response_call w s p) new).
    { eapply Forall_impl; [|exact T2].
      intros e He. destruct e; cbn [write_call response_call] in *;
        try tauto.
      destruct He as [He1 He2]. split; [exact He1|].
      now apply (headers_fragments p). }
    assert (Hpre : Forall (response_call w s p)
                     [EvOpen (c_str p) fd; EvFstat fd 0]).
    { repeat constructor. }
    assert (Hnosf : filter is_sendfile new = [])
      by now apply (write_call_not_sendfile s (map c_str (headers p))).
    destruct (snd (write_all w0 s (headers p))) eqn:Er.
    + destruct (sendfile_loop_trace fuel (fst (write_all w0 s (headers p)))
                  s fd 0 ino)
        as [w' [total' [left [new2 [L1 [L2 [L3 [L4 [_ [_ [_ L8]]]]]]]]]]].
      * rewrite H2. cbn [lookup_fd]. now rewrite Z.eqb_refl.
      * lia.
      * lia.
      * rewrite L1.
        exists w', ([EvOpen (c_str p) fd; EvFstat fd 0] ++ new ++ new2).
        conjuncts.
        -- reflexivity.
        -- rewrite L2, H3, <- !app_assoc. reflexivity.
        -- lia.
        -- rewrite !Forall_app. conjuncts; try assumption.
           eapply Forall_impl; [|exact L4].
           intros e He. destruct e; cbn [sendfile_call] in He;
             try contradiction.
           exists ino. split; [exact Hs|exact He].
        -- intros ino' E. injection E as E. subst ino'.
           unfold body_sent. rewrite !filter_app, Hnosf.
           rewrite (sendfile_calls_filter s fd ino new2 L4).
           exact L8.
    + exists (fst (write_all w0 s (headers p))),
             ([EvOpen (c_str p) fd; EvFstat fd 0] ++ new).
      conjuncts.
      * reflexivity.
      * rewrite H3, <- !app_assoc. reflexivity.
      * exact H4.
      * rewrite Forall_app. split; assumption.
      * intros ino' _. unfold body_sent. rewrite filter_app, Hnosf.
        apply subsequence_nil.
  - destruct (send_404_log fuel w s p Hs) as [w' [H1 [H2 H3]]].
    eexists w', _. conjuncts.
    + exact H1.
    + exact H3.
    + rewrite H2. destruct (pending w); cbn; lia.
    + rewrite Forall_app. split.
      * destruct (openable w p); repeat constructor.
      * apply write_message_events_calls. cbn. tauto.
    + intros ino E. discriminate.
Qed.

Lemma response_calls_other_fd (w : world) (s fd : Z) (p : list byte)
    (l : list event) :
  Forall (response_call w s p) l -> fd <> s -> bytes_on fd l = [].
Proof.
  intros H Hne. induction H as [|e l He _ IH]; [reflexivity|].
  cbn [bytes_on flat_map]. fold (bytes_on fd l). rewrite IH, app_nil_r.
  destruct e; cbn [event_bytes response_call sendfile_call] in *;
    try reflexivity.
  - destruct He as [-> _].
    now replace (s =? fd) with false by (symmetry; lia).
  - destruct He as [ino [_ [-> _]]].
    now replace (s =? fd) with false by (symmetry; lia).
Qed.

(** [perror] is called only by a [write_message] whose write failed. *)
Lemma write_all_perror (msgs : list (list byte)) :
  forall (w : world) (s : Z),
  exists new,
    log (fst (write_all w s msgs)) = log w ++ new /\
    forall m, In (EvPerror m) new ->
              m = lit "write" /\
              exists buf n, In (EvWrite s buf n) new /\ n < 0.
Proof.
  induction msgs as [|m msgs IH]; intros w s.
  - exists []. cbn. rewrite app_nil_r. split; [reflexivity|].
    intros m' [].
  - cbn [write_all]. rewrite write_message_eq, eqb_write_error.
    destruct (0 <=? write_ret w m) eqn:E; cbn [negb].
    + rewrite write_message_events_ok by lia.
      match goal with |- context [write_all ?w1 s msgs] =>
        destruct (IH w1 s) as [new [H1 H2]]
      end.
      cbn [log] in H1.
      exists (EvWrite s (c_str m) (write_ret w m) :: new). split.
      * rewrite H1, <- app_assoc. reflexivity.
      * intros m' [Hin|Hin]; [discriminate|].
        destruct (H2 m' Hin) as [Hm [buf [n [Hb Hn]]]].
        split; [exact Hm|]. exists buf, n. split; [now right|exact Hn].
    + exists (write_message_events s m (write_ret w m)).
      split; [reflexivity|].
      unfold write_message_events.
      replace (write_ret w m <? 0) with true by (symmetry; lia).
      intros m' [Hin|[Hin|[]]]; [discriminate|].
      injection Hin as <-. split; [reflexivity|].
      exists (c_str m), (write_ret w m). split; [now left|lia].
Qed.

Lemma send_http_response_perror (fuel : nat) (w : world) (s : Z)
    (p : list byte) :
  (List.length (pending w) < fuel)%nat ->
  exists w' new,
    send_http_response fuel w s p = Some w' /\
    log w' = log w ++ new /\
    forall m, In (EvPerror m) new ->
              m = lit "write" /\
              exists buf n, In (EvWrite s buf n) new /\ n < 0.
Proof.
  intros Hfuel.
  destruct (servable w p) as [ino|] eqn:Hs.
  - rewrite (send_200_eq fuel w s p ino Hs). cbv zeta.
    set (fd := fresh_fd (fdtable w)).
    set (w0 := {| fs := fs w; fdtable := (fd, ino) :: fdtable w;
                  pending := pending w;
                  log := (log w ++ [EvOpen (c_str p) fd]) ++ [EvFstat fd 0] |}).
    destruct (write_all_shape (headers p) w0 s)
      as [new0 [_ [H2 [H3 [H4 _]]]]].
    destruct (write_all_perror (headers p) w0 s) as [new [T1 T2]].
    rewrite H3 in T1. apply app_inv_head in T1. subst new0.
    cbn [w0 fs fdtable log pending] in H2, H3, H4.
    destruct (snd (write_all w0 s (headers p))) eqn:Er.
    + destruct (sendfile_loop_trace fuel (fst (write_all w0 s (headers p)))
                  s fd 0 ino)
        as [w' [total' [left [new2 [L1 [L2 [_ [L4 _]]]]]]]].
      * rewrite H2. cbn [lookup_fd]. now rewrite Z.eqb_refl.
      * lia.
      * lia.
      * rewrite L1.
        exists w', ([EvOpen (c_str p) fd; EvFstat fd 0] ++ new ++ new2).
        split; [reflexivity|]. split.
        -- rewrite L2, H3, <- !app_assoc. reflexivity.
        -- intros m Hin. rewrite !in_app_iff in Hin.
           destruct Hin as [[Hin|[Hin|[]]]|[Hin|Hin]]; try discriminate.
           ++ destruct (T2 m Hin) as [Hm [buf [n [Hb Hn]]]].
              split; [exact Hm|]. exists buf, n. split; [|exact Hn].
              rewrite !in_app_iff. right. now left.
           ++ rewrite Forall_forall in L4. destruct (L4 _ Hin).
    + exists (fst (write_all w0 s (headers p))),
             ([EvOpen (c_str p) fd; EvFstat fd 0] ++ new).
      split; [reflexivity|]. split.
      * rewrite H3, <- !app_assoc. reflexivity.
      * intros m Hin. rewrite in_app_iff in Hin.
        destruct Hin as [[Hin|[Hin|[]]]|Hin]; try discriminate.
        destruct (T2 m Hin) as [Hm [buf [n [Hb Hn]]]].
        split; [exact Hm|]. exists buf, n. split; [|exact Hn].
        rewrite in_app_iff. now right.
  - destruct (send_404_log fuel w s p Hs) as [w' [H1 [_ H3]]].
    eexists w', _. split; [exact H1|]. split; [exact H3|].
    intros m Hin. rewrite in_app_iff in Hin.
    destruct Hin as [Hin|Hin].
    + destruct (openable w p); cbn in Hin;
        repeat (destruct Hin as [Hin|Hin]; try discriminate);
        contradiction.
    + unfold write_message_events in *.
      destruct (write_ret w STATUS_404 <? 0) eqn:E.
      * destruct Hin as [Hin|[Hin|[]]]; [discriminate|].
        injection Hin as <-. split; [reflexivity|].
        exists (c_str STATUS_404), (write_ret w STATUS_404).
        split; [|lia]. rewrite in_app_iff. right. now left.
      * destruct Hin as [Hin|[]]. discriminate.
Qed.

(** ** X1: nothing goes anywhere but to the socket and standard error *)

(** X1.  Whatever the path and whatever the transfer calls do, an
    invocation puts bytes on the socket it was given and, through
    [perror], on standard error, and nowhere else: what any descriptor
    other than these two has received is unchanged at return.  [perror] is
    called with "write" and only in an invocation one of whose writes on
    the socket failed. *)
Theorem only_the_socket_receives (fuel : nat) (w : world) (s : Z)
    (p : list byte) :
  (List.length (pending w) < fuel)%nat ->
  exists w' new,
    send_http_response fuel w s p = Some w' /\
    log w' = log w ++ new /\
    (forall fd, fd <> s -> fd <> 2 -> received w' fd = received w fd) /\
    (forall m, In (EvPerror m) new ->
               m = lit "write" /\
               exists buf n, In (EvWrite s buf n) new /\ n < 0).
Proof.
  intros Hfuel.
  destruct (send_http_response_trace fuel w s p Hfuel)
    as [w' [new [H1 [H2 [_ [H4 _]]]]]].
  destruct (send_http_response_perror fuel w s p Hfuel)
    as [w'' [new' [P1 [P2 P3]]]].
  rewrite H1 in P1. injection P1 as <-.
  rewrite H2 in P2. apply app_inv_head in P2. subst new'.
  exists w', new. split; [exact H1|]. split; [exact H2|]. split.
  - intros fd Hne _. unfold received. rewrite H2, bytes_on_app.
    rewrite (response_calls_other_fd w s fd p new H4 Hne).
    apply app_nil_r.
  - exact P3.
Qed.

Lemma only_the_socket_receives_witness :
  (List.length (pending (sample_world [Full; Fail])) < 3)%nat /\
  exists w' new,
    send_http_response 3 (sample_world [Full; Fail]) 4 (lit "/www/abcd.html")
    = Some w' /\
    log w' = log (sample_world [Full; Fail]) ++ new /\
    In (EvPerror (lit "write")) new /\
    received w' 3 = received (sample_world [Full; Fail]) 3.
Proof.
  split; [cbn; lia|].
  destruct (only_the_socket_receives 3 (sample_world [Full; Fail]) 4
              (lit "/www/abcd.html"))
    as [w' [new [H1 [H2 [H3 _]]]]]; [cbn; lia|].
  exists w', new. split; [exact H1|]. split; [exact H2|]. split.
  - cbn in H1. injection H1 as <-. cbn in H2.
    rewrite <- H2. cbn. tauto.
  - apply H3; lia.
Defined.

(** ** X2: an empty file *)

(** X2.  For a regular file of size 0 the loop body never runs: the
    invocation returns without a single [sendfile] call, whatever the
    writes of the headers did. *)
Theorem empty_file_no_sendfile (fuel : nat) (w : world) (s : Z)
    (p : list byte) (ino : inode) :
  servable w p = Some ino ->
  i_data ino = [] ->
  (List.length (pending w) < fuel)%nat ->
  exists w' new,
    send_http_response fuel w s p = Some w' /\
    log w' = log w ++ new /\
    filter is_sendfile new = [].
Proof.
  intros Hs Hd Hfuel.
  destruct (send_http_response_trace fuel w s p Hfuel)
    as [w' [new [H1 [H2 [_ [H4 _]]]]]].
  exists w', new. conjuncts; try assumption.
  clear - H4 Hs Hd. induction H4 as [|e l He _ IH]; [reflexivity|].
  destruct e; cbn [filter is_sendfile]; try assumption.
  exfalso. destruct He as [ino' [E He]].
  rewrite Hs in E. injection E as E. subst ino'.
  cbn [sendfile_call] in He. rewrite Hd in He. cbn in He. lia.
Qed.

Lemma empty_file_no_sendfile_witness :
  exists w' new,
    send_http_response 3
      {| fs := [(lit "/empty.css", regular [])]; fdtable := [];
         pending := [Partial 2; Full]; log := [] |} 4 (lit "/empty.css")
    = Some w' /\
    log w' = [] ++ new /\
    filter is_sendfile new = [].
Proof.
  apply (empty_file_no_sendfile 3
           {| fs := [(lit "/empty.css", regular [])]; fdtable := [];
              pending := [Partial 2; Full]; log := [] |} 4
           (lit "/empty.css") (regular []));
    [reflexivity | reflexivity | cbn; lia].
Defined.

(** ** X5: what the loop asks of sendfile *)

(** X5.  Every [sendfile] call of an invocation copies from the file the
    invocation opened to the socket it was given; it is asked for the
    whole size of the file, whatever was moved before; its offset lies
    inside the file; and it moves no more than the bytes from that offset
    to the end of the file, which are the bytes it puts on the socket. *)
Theorem sendfile_calls_in_bounds (fuel : nat) (w : world) (s : Z)
    (p : list byte) :
  (List.length (pending w) < fuel)%nat ->
  exists w' new,
    send_http_response fuel w s p = Some w' /\
    log w' = log w ++ new /\
    forall out_fd in_fd offset count data ret,
      In (EvSendfile out_fd in_fd offset count data ret) new ->
      exists ino,
        servable w p = Some ino /\
        out_fd = s /\ in_fd = fresh_fd (fdtable w) /\
        count = Z.of_nat (List.length (i_data ino)) /\
        0 <= offset < Z.of_nat (List.length (i_data ino)) /\
        -1 <= ret <= Z.of_nat (List.length (i_data ino)) - offset /\
        data = firstn (Z.to_nat ret) (skipn (Z.to_nat offset) (i_data ino)).
Proof.
  intros Hfuel.
  destruct (send_http_response_trace fuel w s p Hfuel)
    as [w' [new [H1 [H2 [_ [H4 _]]]]]].
  exists w', new. conjuncts; try assumption.
  intros out_fd in_fd offset count data ret Hin.
  rewrite Forall_forall in H4. specialize (H4 _ Hin).
  destruct H4 as [ino [E He]]. exists ino. split; [exact E|exact He].
Qed.

Lemma sendfile_calls_in_bounds_witness :
  (List.length (pending (sample_world [Full; Full; Full; Full; Partial 1]))
   < 6)%nat /\
  exists w' new,
    send_http_response 6 (sample_world [Full; Full; Full; Full; Partial 1]) 4
      (lit "/www/abcd.html") = Some w' /\
    log w' = log (sample_world [Full; Full; Full; Full; Partial 1]) ++ new /\
    forall out_fd in_fd offset count data ret,
      In (EvSendfile out_fd in_fd offset count data ret) new ->
      exists ino,
        servable (sample_world [Full; Full; Full; Full; Partial 1])
                 (lit "/www/abcd.html") = Some ino /\
        out_fd = 4 /\ in_fd = 5 /\
        count = Z.of_nat (List.length (i_data ino)) /\
        0 <= offset < Z.of_nat (List.length (i_data ino)) /\
        -1 <= ret <= Z.of_nat (List.length (i_data ino)) - offset /\
        data = firstn (Z.to_nat ret) (skipn (Z.to_nat offset) (i_data ino)).
Proof.
  split; [cbn; lia|].
  apply (sendfile_calls_in_bounds 6
           (sample_world [Full; Full; Full; Full; Partial 1]) 4
           (lit "/www/abcd.html")).
  cbn. lia.
Defined.

(** ** X6: the cursor of the loop *)

(** X6.  With the descriptor open on the file, the loop started at a
    non-negative cursor returns, and the cursor it ends with is the one it
    started with plus twice the number of bytes its calls moved.  When it is
    left by its condition, and it always is when no call fails, that value
    is at least the size of the file. *)
Theorem cursor_is_twice_the_bytes_moved (fuel : nat) (w : world)
    (s fd total : Z) (ino : inode) :
  lookup_fd (fdtable w) fd = Some ino ->
  0 <= total ->
  (List.length (pending w) < fuel)%nat ->
  exists w' total' left new,
    sendfile_loop fuel w s fd (Z.of_nat (List.length (i_data ino))) total
    = Some (w', total', left) /\
    log w' = log w ++ new /\
    total' = total + 2 * Z.of_nat (List.length (bytes_on s new)) /\
    (left = false -> Z.of_nat (List.length (i_data ino)) <= total') /\
    (none_fails (pending w) -> left = false).
Proof.
  intros Hfd Htot Hfuel.
  destruct (sendfile_loop_trace fuel w s fd total ino Hfd Htot Hfuel)
    as [w' [total' [left [new [H1 [H2 [_ [_ [H5 [H6 [H7 _]]]]]]]]]]].
  exists w', total', left, new. conjuncts; assumption.
Qed.

Lemma cursor_is_twice_the_bytes_moved_witness :
  let w := fst (open (sample_world [Partial 1; Partial 1]) (lit "/www/abcd.html")
                     O_RDONLY) in
  exists w' new,
    sendfile_loop 3 w 4 5 4 0 = Some (w', 4, false) /\
    log w' = log w ++ new /\
    bytes_on 4 new = lit "ac".
Proof.
  cbv zeta.
  destruct (cursor_is_twice_the_bytes_moved 3
              (fst (open (sample_world [Partial 1; Partial 1])
                         (lit "/www/abcd.html") O_RDONLY))
              4 5 0 (regular (lit "abcd")))
    as [w' [total' [left [new [H1 [H2 _]]]]]];
    [reflexivity | lia | cbn; lia |].
  exists w', new. cbn in H1. injection H1 as <- _ _.
  split; [reflexivity|]. split; [exact H2|].
  cbn in H2. apply (app_inv_head [_]) in H2. subst new. reflexivity.
Defined.

(** ** X7: the body is made of the file's bytes *)

(** X7.  Whatever the transfer calls do, the bytes the [sendfile] calls of
    an invocation put on the socket are bytes of the file in their order:
    none is sent twice, none is out of place, none comes from elsewhere;
    so the body is never longer than the file. *)
Theorem body_is_subsequence_of_file (fuel : nat) (w : world) (s : Z)
    (p : list byte) (ino : inode) :
  servable w p = Some ino ->
  (List.length (pending w) < fuel)%nat ->
  exists w' new,
    send_http_response fuel w s p = Some w' /\
    log w' = log w ++ new /\
    subsequence (body_sent s new) (i_data ino) /\
    (List.length (body_sent s new) <= List.length (i_data ino))%nat.
Proof.
  intros Hs Hfuel.
  destruct (send_http_response_trace fuel w s p Hfuel)
    as [w' [new [H1 [H2 [_ [_ H5]]]]]].
  exists w', new. conjuncts; try assumption.
  - now apply H5.
  - apply subsequence_length. now apply H5.
Qed.

Lemma body_is_subsequence_of_file_witness :
  servable (sample_world [Full; Full; Full; Full; Partial 1])
           (lit "/www/abcd.html") = Some (regular (lit "abcd")) /\
  exists w' new,
    send_http_response 6 (sample_world [Full; Full; Full; Full; Partial 1]) 4
      (lit "/www/abcd.html") = Some w' /\
    log w' = log (sample_world [Full; Full; Full; Full; Partial 1]) ++ new /\
    subsequence (body_sent 4 new) (lit "abcd") /\
    (List.length (body_sent 4 new) <= 4)%nat.
Proof.
  split; [reflexivity|].
  apply (body_is_subsequence_of_file 6
           (sample_world [Full; Full; Full; Full; Partial 1]) 4
           (lit "/www/abcd.html") (regular (lit "abcd")));
    [reflexivity | cbn; lia].
Defined.

(** ** X10: what is written *)

(** X10.  Every [write] of an invocation is on the socket it was given and
    hands over one of nine fixed strings: the two status lines,
    "Content-Type: ", the blank line, and the five type names.  Nothing of
    the path, and no other byte, is ever passed to [write]. *)
Theorem writes_are_fixed_strings (fuel : nat) (w : world) (s : Z)
    (p : list byte) :
  (List.length (pending w) < fuel)%nat ->
  exists w' new,
    send_http_response fuel w s p = Some w' /\
    log w' = log w ++ new /\
    forall fd buf n,
      In (EvWrite fd buf n) new ->
      fd = s /\
      In buf [ lit "HTTP/1.0 200 OK" ++ CRLF;
               lit "HTTP/1.0 404 Not Found" ++ CRLF ++ CRLF;
               lit "Content-Type: "; CRLF ++ CRLF;
               lit "text/html"; lit "image/jpeg"; lit "text/javascript";
               lit "text/css"; lit "application/octet-stream" ].
Proof.
  intros Hfuel.
  destruct (send_http_response_trace fuel w s p Hfuel)
    as [w' [new [H1 [H2 [_ [H4 _]]]]]].
  exists w', new. conjuncts; try assumption.
  intros fd buf n Hin.
  rewrite Forall_forall in H4. exact (H4 _ Hin).
Qed.

Lemma writes_are_fixed_strings_witness :
  (List.length (pending (sample_world [Partial 5])) < 2)%nat /\
  exists w' new,
    send_http_response 2 (sample_world [Partial 5]) 4 (lit "/www/abcd.html")
    = Some w' /\
    log w' = log (sample_world [Partial 5]) ++ new /\
    forall fd buf n,
      In (EvWrite fd buf n) new ->
      fd = 4 /\
      In buf [ lit "HTTP/1.0 200 OK" ++ CRLF;
               lit "HTTP/1.0 404 Not Found" ++ CRLF ++ CRLF;
               lit "Content-Type: "; CRLF ++ CRLF;
               lit "text/html"; lit "image/jpeg"; lit "text/javascript";
               lit "text/css"; lit "application/octet-stream" ].
Proof.
  split; [cbn; lia|].
  apply (writes_are_fixed_strings 2 (sample_world [Partial 5]) 4
           (lit "/www/abcd.html")).
  cbn. lia.
Defined.

(** ** The 200 answer when no call fails *)

Lemma c_str_content_type_written (p : list byte) :
  c_str (content_type_written p) = content_type_written p.
Proof.
  apply c_str_nul_free.
  destruct (content_type_written_cases p)
    as [<-|[<-|[<-|[<-|[<-|[]]]]]]; reflexivity.
Qed.

Lemma send_200_none_fails (fuel : nat) (w : world) (s : Z) (p : list byte)
    (ino : inode) :
  servable w p = Some ino ->
  none_fails (pending w) ->
  (List.length (pending w) < fuel)%nat ->
  exists w' n1 n2 n3 n4 body,
    send_http_response fuel w s p = Some w' /\
    log w' = log w
             ++ [EvOpen (c_str p) (fresh_fd (fdtable w));
                 EvFstat (fresh_fd (fdtable w)) 0;
                 EvWrite s STATUS_200 n1; EvWrite s CONTENT_TYPE n2;
                 EvWrite s (content_type_written p) n3;
                 EvWrite s END_OF_HEADERS n4]
             ++ body /\
    (0 <= n1 /\ 0 <= n2 /\ 0 <= n3 /\ 0 <= n4) /\
    Forall (sendfile_call s (fresh_fd (fdtable w)) ino) body /\
    Z.of_nat (List.length (i_data ino))
    <= 2 * Z.of_nat (List.length (bytes_on s body)).
Proof.
  intros Hs Hnf Hfuel.
  rewrite (send_200_eq fuel w s p ino Hs). cbv zeta.
  set (fd := fresh_fd (fdtable w)).
  set (w0 := {| fs := fs w; fdtable := (fd, ino) :: fdtable w;
                pending := pending w;
                log := (log w ++ [EvOpen (c_str p) fd]) ++ [EvFstat fd 0] |}).
  destruct (write_all_none_fails (headers p) w0 s Hnf)
    as [w1 [ns [E [_ [H2 [H3 [H4 [H5 [H6 H7]]]]]]]]].
  rewrite E. cbn [fst snd WRITE_SUCCESSFUL].
  destruct ns as [|n1 [|n2 [|n3 [|n4 [|? ?]]]]]; try discriminate.
  inversion H6 as [|? ? P1 Q1]. inversion Q1 as [|? ? P2 Q2].
  inversion Q2 as [|? ? P3 Q3]. inversion Q3 as [|? ? P4 _]. subst.
  cbn [headers combine map fst snd w0 log pending fdtable] in H2, H4, H7.
  rewrite c_str_content_type_written in H7.
  destruct (sendfile_loop_trace fuel w1 s fd 0 ino)
    as [w' [total' [left [body [L1 [L2 [_ [L4 [L5 [L6 [L7 _]]]]]]]]]]].
  - rewrite H2. cbn [lookup_fd]. now rewrite Z.eqb_refl.
  - lia.
  - lia.
  - rewrite L1. exists w', n1, n2, n3, n4, body.
    conjuncts; try assumption.
    + reflexivity.
    + rewrite L2, H7, <- !app_assoc. reflexivity.
    + specialize (L6 (L7 H3)). lia.
Qed.

(** ** X3: the calls of a 200 answer *)

(** X3.  For a regular file that can be opened, when no call fails (each
    may accept less than it is given), the invocation makes these calls and
    no other, in this order: [open] of the path, [fstat] of the new
    descriptor, the four writes of the status line, "Content-Type: ", the
    resolved type and the blank line, none repeated, and then [sendfile]
    calls only. *)
Theorem calls_when_nothing_fails (fuel : nat) (w : world) (s : Z)
    (p : list byte) (ino : inode) :
  servable w p = Some ino ->
  none_fails (pending w) ->
  (List.length (pending w) < fuel)%nat ->
  exists w' n1 n2 n3 n4 body,
    send_http_response fuel w s p = Some w' /\
    log w' = log w
             ++ [EvOpen (c_str p) (fresh_fd (fdtable w));
                 EvFstat (fresh_fd (fdtable w)) 0;
                 EvWrite s (lit "HTTP/1.0 200 OK" ++ CRLF) n1;
                 EvWrite s (lit "Content-Type: ") n2;
                 EvWrite s (resolve_content_type (c_str p)) n3;
                 EvWrite s (CRLF ++ CRLF) n4]
             ++ body /\
    (0 <= n1 /\ 0 <= n2 /\ 0 <= n3 /\ 0 <= n4) /\
    filter is_sendfile body = body.
Proof.
  intros Hs Hnf Hfuel.
  destruct (send_200_none_fails fuel w s p ino Hs Hnf Hfuel)
    as [w' [n1 [n2 [n3 [n4 [body [H1 [H2 [H3 [H4 _]]]]]]]]]].
  exists w', n1, n2, n3, n4, body.
  rewrite <- content_type_written_eq.
  conjuncts; try assumption; try tauto.
  now apply (sendfile_calls_filter s (fresh_fd (fdtable w)) ino).
Qed.

Lemma calls_when_nothing_fails_witness :
  none_fails [Partial 5; Partial 0] /\
  exists w' n1 n2 n3 n4 body,
    send_http_response 3 (sample_world [Partial 5; Partial 0]) 4
      (lit "/www/a.bin") = Some w' /\
    log w' = log (sample_world [Partial 5; Partial 0])
             ++ [EvOpen (c_str (lit "/www/a.bin"))
                   (fresh_fd (fdtable (sample_world [Partial 5; Partial 0])));
                 EvFstat
                   (fresh_fd (fdtable (sample_world [Partial 5; Partial 0]))) 0;
                 EvWrite 4 (lit "HTTP/1.0 200 OK" ++ CRLF) n1;
                 EvWrite 4 (lit "Content-Type: ") n2;
                 EvWrite 4 (resolve_content_type (c_str (lit "/www/a.bin"))) n3;
                 EvWrite 4 (CRLF ++ CRLF) n4]
             ++ body /\
    (0 <= n1 /\ 0 <= n2 /\ 0 <= n3 /\ 0 <= n4) /\
    filter is_sendfile body = body.
Proof.
  assert (H : none_fails [Partial 5; Partial 0])
    by (repeat constructor; discriminate).
  split; [exact H|].
  apply (calls_when_nothing_fails 3 (sample_world [Partial 5; Partial 0]) 4
           (lit "/www/a.bin") (regular (lit "a")));
    [reflexivity | exact H | cbn; lia].
Defined.

(** ** X11: how much of the file is sent *)

(** X11.  For a regular file that can be opened, when no call fails, the
    [sendfile] calls of the invocation have put at least half of the
    file's bytes on the socket when it returns: the loop stops once twice
    the bytes moved reach the size. *)
Theorem at_least_half_the_file (fuel : nat) (w : world) (s : Z)
    (p : list byte) (ino : inode) :
  servable w p = Some ino ->
  none_fails (pending w) ->
  (List.length (pending w) < fuel)%nat ->
  exists w' new,
    send_http_response fuel w s p = Some w' /\
    log w' = log w ++ new /\
    Z.of_nat (List.length (i_data ino))
    <= 2 * Z.of_nat (List.length (body_sent s new)).
Proof.
  intros Hs Hnf Hfuel.
  destruct (send_200_none_fails fuel w s p ino Hs Hnf Hfuel)
    as [w' [n1 [n2 [n3 [n4 [body [H1 [H2 [_ [H4 H5]]]]]]]]]].
  eexists w', _. conjuncts; [exact H1|exact H2|].
  unfold body_sent. rewrite filter_app. cbn [filter is_sendfile app].
  now rewrite (sendfile_calls_filter s (fresh_fd (fdtable w)) ino).
Qed.

Lemma at_least_half_the_file_witness :
  none_fails [Full; Full; Full; Full; Partial 1] /\
  exists w' new,
    send_http_response 6 (sample_world [Full; Full; Full; Full; Partial 1]) 4
      (lit "/www/abcd.html") = Some w' /\
    log w' = log (sample_world [Full; Full; Full; Full; Partial 1]) ++ new /\
    4 <= 2 * Z.of_nat (List.length (body_sent 4 new)).
Proof.
  assert (H : none_fails [Full; Full; Full; Full; Partial 1])
    by (repeat constructor; discriminate).
  split; [exact H|].
  apply (at_least_half_the_file 6
           (sample_world [Full; Full; Full; Full; Partial 1]) 4
           (lit "/www/abcd.html") (regular (lit "abcd")));
    [reflexivity | exact H | cbn; lia].
Defined.

(** ** Scripts that are complete up to a point *)

Lemma bytes_on_map_whole (s : Z) (msgs : list (list byte)) :
  bytes_on s (map (whole_write s) msgs) = List.concat msgs.
Proof. exact (bytes_on_whole_writes s msgs). Qed.

Lemma sendfile_loop_fail_first (fuel : nat) (w : world) (s fd : Z)
    (ino : inode) (rest : list outcome) :
  lookup_fd (fdtable w) fd = Some ino ->
  pending w = Fail :: rest ->
  i_data ino <> [] ->
  sendfile_loop (S fuel) w s fd (Z.of_nat (List.length (i_data ino))) 0
  = Some (record (consume w)
            (EvSendfile s fd 0 (Z.of_nat (List.length (i_data ino))) [] (-1)),
          0, true).
Proof.
  intros Hfd Hp Hd.
  assert (0 < Z.of_nat (List.length (i_data ino))).
  { destruct (i_data ino); [contradiction|]. cbn [List.length]. lia. }
  cbn [sendfile_loop].
  replace (0 <? Z.of_nat (List.length (i_data ino))) with true
    by (symmetry; lia).
  unfold sendfile. rewrite Hfd, Hp. reflexivity.
Qed.

(** Calls that move nothing leave the loop where it was: after any number
    of them, complete calls still move the whole file. *)
Lemma sendfile_loop_zero_counts (k : nat) :
  forall (fuel : nat) (w : world) (s fd : Z) (ino : inode)
         (rest : list outcome),
    lookup_fd (fdtable w) fd = Some ino ->
    pending w = repeat (Partial 0) k ++ rest ->
    all_full rest ->
    (k < fuel)%nat ->
    exists w' total' new,
      sendfile_loop fuel w s fd (Z.of_nat (List.length (i_data ino))) 0
      = Some (w', total', false) /\
      log w' = log w ++ new /\
      bytes_on s new = i_data ino.
Proof.
  induction k as [|k IH]; intros fuel w s fd ino rest Hfd Hp Hfull Hfuel.
  - cbn [repeat app] in Hp. rewrite <- Hp in Hfull.
    destruct (sendfile_loop_full fuel w s fd ino Hfd Hfull Hfuel)
      as [w' [new [H1 [_ [_ [H4 H5]]]]]].
    exists w', (2 * Z.of_nat (List.length (i_data ino))), new.
    conjuncts; assumption.
  - set (size := Z.of_nat (List.length (i_data ino))).
    destruct (0 <? size) eqn:Elt.
    2:{ exists w, 0, []. rewrite sendfile_loop_done by lia.
        rewrite app_nil_r. conjuncts; try reflexivity.
        destruct (i_data ino); [reflexivity|]. cbn in size. lia. }
    destruct fuel as [|fuel]; [lia|].
    cbn [repeat app] in Hp.
    cbn [sendfile_loop]. rewrite Elt. unfold sendfile. rewrite Hfd, Hp.
    change (Z.to_nat 0) with 0%nat. cbn [skipn hd_error moved]. fold size.
    replace (Z.max 0 (Z.min size size)) with size by lia.
    replace (Z.max 0 (Z.min 0 size)) with 0 by lia.
    cbn [Z.ltb Z.geb Z.compare Z.add Z.to_nat firstn].
    match goal with |- context [sendfile_loop fuel ?w1 s fd size 0] =>
      destruct (IH fuel w1 s fd ino rest)
        as [w' [total' [new [H1 [H2 H3]]]]];
        [exact Hfd | cbn; now rewrite Hp | exact Hfull | lia |]
    end.
    fold size in H1. rewrite H1.
    eexists w', total', (_ :: new). conjuncts.
    + reflexivity.
    + rewrite H2. cbn [record consume log]. rewrite <- app_assoc.
      reflexivity.
    + cbn [bytes_on flat_map event_bytes]. rewrite Z.eqb_refl. exact H3.
Qed.

(** ** X4: a response cut by a failure *)

(** X4.  For a non-empty regular file, when the first [k] transfer calls
    are complete and the next one fails ([k] at most 4: one of the four
    header writes, or the first [sendfile]), the socket has received
    exactly the first [k] header strings and nothing after them, and the
    invocation has made no call after the failed one: the rest of the
    script is still to come. *)
Theorem response_cut_at_failure (fuel : nat) (w : world) (s : Z)
    (p : list byte) (ino : inode) (k : nat) (rest : list outcome) :
  servable w p = Some ino ->
  i_data ino <> [] ->
  (k <= 4)%nat ->
  pending w = repeat Full k ++ Fail :: rest ->
  (0 < fuel)%nat ->
  exists w',
    send_http_response fuel w s p = Some w' /\
    received w' s
    = received w s
      ++ List.concat
           (firstn k [ lit "HTTP/1.0 200 OK" ++ CRLF; lit "Content-Type: ";
                       resolve_content_type (c_str p); CRLF ++ CRLF ]) /\
    pending w' = rest.
Proof.
  intros Hs Hd Hk Hp Hfuel.
  rewrite (send_200_eq fuel w s p ino Hs). cbv zeta.
  rewrite <- content_type_written_eq.
  set (fd := fresh_fd (fdtable w)).
  set (w0 := {| fs := fs w; fdtable := (fd, ino) :: fdtable w;
                pending := pending w;
                log := (log w ++ [EvOpen (c_str p) fd]) ++ [EvFstat fd 0] |}).
  pose proof (headers_well_formed p) as Hwf. unfold headers in Hwf.
  inversion Hwf as [|? ? W1 Q1]. inversion Q1 as [|? ? W2 Q2].
  inversion Q2 as [|? ? W3 Q3]. inversion Q3 as [|? ? W4 _]. subst.
  assert (Hcut : forall pre m post,
             headers p = pre ++ m :: post -> List.length pre = k ->
             Forall (fun m => nul_free m = true /\
                              Z.of_nat (List.length m) <= MAX_RW_COUNT) pre ->
             exists w',
               (if snd (write_all w0 s (headers p))
                then match sendfile_loop fuel (fst (write_all w0 s (headers p)))
                             s fd (Z.of_nat (List.length (i_data ino))) 0 with
                     | Some (w2, _, _) => Some w2
                     | None => None
                     end
                else Some (fst (write_all w0 s (headers p)))) = Some w' /\
               received w' s = received w s ++ List.concat pre /\
               pending w' = rest).
  { intros pre m post E Hlen Hpre. rewrite E.
    destruct (write_all_fail_at pre w0 s m post rest)
      as [w1 [E1 [_ [_ [H4 H5]]]]];
      [cbn [w0 pending]; now rewrite Hlen | exact Hpre |].
    rewrite E1. cbn [fst snd WRITE_ERROR].
    exists w1. conjuncts; [reflexivity| |exact H4].
    unfold received. rewrite H5. cbn [w0 log].
    rewrite !bytes_on_app, bytes_on_map_whole.
    cbn [bytes_on flat_map event_bytes]. rewrite Z.eqb_refl.
    cbn [Z.to_nat firstn]. now rewrite !app_nil_r. }
  destruct k as [|[|[|[|[|k]]]]]; try lia.
  - apply (Hcut [] STATUS_200 _ eq_refl eq_refl). constructor.
  - apply (Hcut [STATUS_200] CONTENT_TYPE _ eq_refl eq_refl).
    repeat constructor; tauto.
  - apply (Hcut [STATUS_200; CONTENT_TYPE] (content_type_written p) _
             eq_refl eq_refl).
    repeat constructor; tauto.
  - apply (Hcut [STATUS_200; CONTENT_TYPE; content_type_written p]
             END_OF_HEADERS _ eq_refl eq_refl).
    repeat constructor; tauto.
  - clear Hcut.
    destruct (write_all_full_prefix (headers p) w0 s (Fail :: rest))
      as [w1 [E1 [_ [H3 [H4 H5]]]]];
      [exact Hp | exact (headers_well_formed p) |].
    rewrite E1. cbn [fst snd WRITE_SUCCESSFUL].
    destruct fuel as [|fuel]; [lia|].
    rewrite (sendfile_loop_fail_first fuel w1 s fd ino rest);
      [| rewrite H3; cbn [w0 fdtable lookup_fd]; now rewrite Z.eqb_refl
       | exact H4 | exact Hd].
    eexists. conjuncts; [reflexivity| |cbn; now rewrite H4].
    unfold received. cbn [record consume log]. rewrite H5. cbn [w0 log].
    rewrite !bytes_on_app, bytes_on_map_whole.
    cbn [bytes_on flat_map event_bytes headers firstn].
    rewrite Z.eqb_refl. now rewrite !app_nil_r.
Qed.

Lemma response_cut_at_failure_witness :
  servable (sample_world [Full; Full; Fail; Full]) (lit "/www/index.html")
  = Some (regular (lit "0123456789")) /\
  exists w',
    send_http_response 1 (sample_world [Full; Full; Fail; Full]) 4
      (lit "/www/index.html") = Some w' /\
    received w' 4
    = received (sample_world [Full; Full; Fail; Full]) 4
      ++ List.concat
           (firstn 2 [ lit "HTTP/1.0 200 OK" ++ CRLF; lit "Content-Type: ";
                       resolve_content_type (c_str (lit "/www/index.html"));
                       CRLF ++ CRLF ]) /\
    pending w' = [Full].
Proof.
  split; [reflexivity|].
  apply (response_cut_at_failure 1 (sample_world [Full; Full; Fail; Full]) 4
           (lit "/www/index.html") (regular (lit "0123456789")) 2 [Full]);
    [reflexivity | discriminate | lia | reflexivity | lia].
Defined.

(** ** X8: calls that move nothing *)

(** X8.  For a regular file that can be opened, when the header writes are
    complete and [sendfile] returns 0 any number of times before its calls
    are complete, the loop calls it again from the same offset and the
    socket receives the whole response, as if those calls had not been. *)
Theorem zero_counts_do_no_harm (fuel : nat) (w : world) (s : Z)
    (p : list byte) (ino : inode) (k : nat) (rest : list outcome) :
  servable w p = Some ino ->
  pending w = repeat Full 4 ++ repeat (Partial 0) k ++ rest ->
  all_full rest ->
  (k < fuel)%nat ->
  exists w',
    send_http_response fuel w s p = Some w' /\
    received w' s
    = received w s
      ++ (lit "HTTP/1.0 200 OK" ++ CRLF)
      ++ lit "Content-Type: " ++ resolve_content_type (c_str p)
      ++ (CRLF ++ CRLF)
      ++ i_data ino.
Proof.
  intros Hs Hp Hfull Hfuel.
  rewrite (send_200_eq fuel w s p ino Hs). cbv zeta.
  rewrite <- content_type_written_eq.
  set (fd := fresh_fd (fdtable w)).
  set (w0 := {| fs := fs w; fdtable := (fd, ino) :: fdtable w;
                pending := pending w;
                log := (log w ++ [EvOpen (c_str p) fd]) ++ [EvFstat fd 0] |}).
  destruct (write_all_full_prefix (headers p) w0 s
              (repeat (Partial 0) k ++ rest))
    as [w1 [E1 [_ [H3 [H4 H5]]]]];
    [exact Hp | exact (headers_well_formed p) |].
  rewrite E1. cbn [fst snd WRITE_SUCCESSFUL].
  destruct (sendfile_loop_zero_counts k fuel w1 s fd ino rest)
    as [w' [total' [new [L1 [L2 L3]]]]];
    [ rewrite H3; cbn [w0 fdtable lookup_fd]; now rewrite Z.eqb_refl
    | exact H4 | exact Hfull | exact Hfuel |].
  rewrite L1. exists w'. split; [reflexivity|].
  unfold received. rewrite L2, H5. cbn [w0 log].
  rewrite !bytes_on_app, bytes_on_map_whole, L3.
  cbn [bytes_on flat_map event_bytes headers List.concat].
  rewrite !app_nil_r, <- !app_assoc. reflexivity.
Qed.

Lemma zero_counts_do_no_harm_witness :
  servable (sample_world [Full; Full; Full; Full; Partial 0; Partial 0])
           (lit "/www/abcd.html") = Some (regular (lit "abcd")) /\
  exists w',
    send_http_response 3
      (sample_world [Full; Full; Full; Full; Partial 0; Partial 0]) 4
      (lit "/www/abcd.html") = Some w' /\
    received w' 4
    = received (sample_world [Full; Full; Full; Full; Partial 0; Partial 0]) 4
      ++ (lit "HTTP/1.0 200 OK" ++ CRLF)
      ++ lit "Content-Type: "
      ++ resolve_content_type (c_str (lit "/www/abcd.html"))
      ++ (CRLF ++ CRLF)
      ++ i_data (regular (lit "abcd")).
Proof.
  split; [reflexivity|].
  apply (zero_counts_do_no_harm 3
           (sample_world [Full; Full; Full; Full; Partial 0; Partial 0]) 4
           (lit "/www/abcd.html") (regular (lit "abcd")) 2 []);
    [reflexivity | reflexivity | constructor | lia].
Defined.

(** ** X9: one invocation after another *)

Lemma openable_same_fs (w w' : world) (p : list byte) :
  fs w' = fs w -> openable w' p = openable w p.
Proof. intros H. unfold openable. now rewrite H. Qed.

(** X9.  Two invocations in a row, each for a path that can be opened: the
    second file gets a descriptor other than the first one's, and at the
    return of the second both are still open, on top of the descriptors
    open before. *)
Theorem two_invocations_two_descriptors (fuel : nat) (w : world)
    (s1 s2 : Z) (p1 p2 : list byte) (ino1 ino2 : inode) :
  openable w p1 = Some ino1 ->
  openable w p2 = Some ino2 ->
  (List.length (pending w) < fuel)%nat ->
  exists w1 w2 fd1 fd2,
    send_http_response fuel w s1 p1 = Some w1 /\
    send_http_response fuel w1 s2 p2 = Some w2 /\
    fdtable w2 = (fd2, ino2) :: (fd1, ino1) :: fdtable w /\
    fd1 <> fd2 /\
    ~ In fd1 (open_fds w) /\ ~ In fd2 (open_fds w).
Proof.
  intros Ho1 Ho2 Hfuel.
  destruct (send_http_response_shape fuel w s1 p1 Hfuel)
    as [w1 [new1 [tail1 [A1 [A2 [A3 _]]]]]].
  destruct (send_http_response_trace fuel w s1 p1 Hfuel)
    as [w1' [new1' [B1 [_ [B3 _]]]]].
  rewrite A1 in B1. injection B1 as <-.
  assert (Hfuel1 : (List.length (pending w1) < fuel)%nat) by lia.
  destruct (send_http_response_shape fuel w1 s2 p2 Hfuel1)
    as [w2 [new2 [tail2 [C1 [_ [C3 _]]]]]].
  unfold newly_opened in A3, C3.
  rewrite Ho1 in A3. rewrite (openable_same_fs w w1 p2 A2), Ho2 in C3.
  cbn [app] in A3, C3.
  pose proof (fresh_fd_not_in (fdtable w)) as N1.
  pose proof (fresh_fd_not_in (fdtable w1)) as N2.
  assert (Hmap : map fst (fdtable w1)
                 = fresh_fd (fdtable w) :: map fst (fdtable w))
    by (rewrite A3; reflexivity).
  rewrite Hmap in N2.
  exists w1, w2, (fresh_fd (fdtable w)), (fresh_fd (fdtable w1)).
  conjuncts.
  - exact A1.
  - exact C1.
  - rewrite C3, A3. reflexivity.
  - intros E. apply N2. left. exact E.
  - exact N1.
  - intros Hin. apply N2. right. exact Hin.
Qed.

Lemma two_invocations_two_descriptors_witness :
  exists w1 w2 fd1 fd2,
    send_http_response 1 (sample_world []) 4 (lit "/www/abcd.html") = Some w1 /\
    send_http_response 1 w1 4 (lit "/www") = Some w2 /\
    fdtable w2 = (fd2, directory) :: (fd1, regular (lit "abcd"))
                 :: fdtable (sample_world []) /\
    fd1 <> fd2 /\
    ~ In fd1 (open_fds (sample_world [])) /\
    ~ In fd2 (open_fds (sample_world [])).
Proof.
  apply (two_invocations_two_descriptors 1 (sample_world []) 4 4
           (lit "/www/abcd.html") (lit "/www")
           (regular (lit "abcd")) directory);
    [reflexivity | reflexivity | cbn; lia].
Defined.
